(** * webrss: a feed aggregator for Atom and RSS 2.0

    A shallow embedding of [main.go]: the listing ([filterEntries]), the
    normalizer ([tryParse]), the poller ([fetch]), the cache actor
    ([feedCache]) and the store ([saveFeeds], [fetchFeeds]).

    Library code the program calls is taken by contract where the program
    relies on a contract only ([sort.Slice], [time.Parse], [encoding/gob], the
    network): a [Section] variable, with the hypotheses needed, and a model to
    run it on.  [encoding/xml] is modelled on the tokens of a document, as
    the field tags of the two schemas direct it.

    A slice is modelled by the list of its elements.  No function of the
    program writes to the elements of a slice it was given or has sent:
    [fetch] builds its batch by [append] and lets go of it once sent,
    [filterEntries] sorts a slice of its own making. *)

From Stdlib Require Import ZArith List String Ascii Bool Lia.
From Stdlib Require Import Permutation Sorted OrderedTypeEx.
Import ListNotations.
#[local] Set Warnings "-register-all".
Open Scope string_scope.
Open Scope list_scope.

(** ** Errors

    A Go [error] is modelled by its message, [nil] by [None]. *)
Definition error := string.

(** ** time.Time

    A [Time] is modelled by the instant it denotes: seconds since January 1,
    year 1 00:00:00 UTC (negative before) and the nanosecond within the
    second; and by its location, as far as the program's libraries read it:
    UTC, or another location, of which the offset at that instant is kept.
    [After] and [IsZero] read the instant only; the encoding of a [Time] that
    [encoding/gob] asks it for reads the location too.  The monotonic reading
    is left out: no time the program keeps has one. *)
Module time.

(** [t.Location() == UTC], or else the offset [t.Zone()] gives, in seconds
    east of UTC. *)
Inductive Location : Type :=
| UTC
| Zone (offset : Z).

Record Time : Type := mkTime { sec : Z; nsec : Z; loc : Location }.

(** [time.Time{}], the zero value. *)
Definition zero : Time := mkTime 0 0 UTC.

Definition IsZero (t : Time) : bool :=
  (sec t =? 0)%Z && (nsec t =? 0)%Z.

(** [func (t Time) After(u Time) bool]:
    [ts > us || ts == us && t.nsec() > u.nsec()]. *)
Definition After (t u : Time) : bool :=
  (sec u <? sec t)%Z || ((sec t =? sec u)%Z && (nsec u <? nsec t)%Z).

(** [func (t Time) MarshalBinary() ([]byte, error)], which is the
    [GobEncode] of a [Time]: the error it returns, if any.  The offset is
    written in minutes, and -1 stands for UTC there.  (Up to Go 1.19; later
    releases write an offset with a fraction of a minute too, and refuse
    the same range of whole minutes.) *)
Definition MarshalBinary_err (t : Time) : option error :=
  match loc t with
  | UTC => None
  | Zone offset =>
      if negb (Z.rem offset 60 =? 0)%Z then
        Some "Time.MarshalBinary: zone offset has fractional minute"
      else
        let offset := Z.quot offset 60 in
        if (offset <? -32768)%Z || (offset =? -1)%Z || (32767 <? offset)%Z
        then Some "Time.MarshalBinary: unexpected zone offset"
        else None
  end.

End time.

(** ** Entry *)
Record Entry : Type := mkEntry {
  FeedName : string;
  FeedURL  : string;
  Title    : string;
  URL      : string;
  When     : time.Time
}.

(** ** sort.Slice

    What the documentation of package [sort] asks of [less]: a transitive
    ordering whose "not less" is transitive too. *)
Record LessOrdering {A : Type} (less : A -> A -> bool) : Prop := {
  less_irrefl : forall a, less a a = false;
  less_trans : forall a b c,
      less a b = true -> less b c = true -> less a c = true;
  less_neg_trans : forall a b c,
      less a b = false -> less b c = false -> less a c = false
}.

(** [sort.IsSorted]: no element is less than the one before it. *)
Definition IsSorted {A : Type} (less : A -> A -> bool) (x : list A) : Prop :=
  Sorted (fun a b => less b a = false) x.

(** The function literal given to [sort.Slice] in [filterEntries]:
    [filtered[i].When.After(filtered[j].When)], on the elements compared. *)
Definition moreRecent (a b : Entry) : bool :=
  time.After (When a) (When b).

(** ** Query/Filter *)
Section Filter.

(** [sort.Slice(x, less)], by its contract: it permutes [x] and leaves it
    sorted. *)
Variable sort_Slice : forall A : Type, list A -> (A -> A -> bool) -> list A.

(** [func filterEntries(feeds []Entry, begin time.Time) []Entry] *)
Definition filterEntries (feeds : list Entry) (begin : time.Time)
    : list Entry :=
  let filtered :=
    fold_left
      (fun filtered i =>
         if time.After (When i) begin then filtered ++ [i] else filtered)
      feeds [] in
  sort_Slice Entry filtered moreRecent.

End Filter.

(** ** encoding/xml

    The document an [xml.Decoder] reads, as the decoder's tokens present it: a
    forest of elements, character data and other tokens (comments, processing
    instructions, directives).  [SyntaxError e] stands at the place where
    [Decoder.Token] stops with the error [e], so that a document holding none
    is one the decoder decodes to its end. *)
Module xml.

Record Name : Type := mkName { Space : string; Local : string }.

Record Attr : Type := mkAttr { AttrName : Name; Value : string }.

Record StartElement : Type := mkStart { ElemName : Name; Attrs : list Attr }.

Inductive Node : Type :=
| Element (start : StartElement) (content : list Node)
| CharData (data : string)
| Other
| SyntaxError (e : error).

(** What the [io.Reader] given to [xml.NewDecoder] holds: the top-level
    tokens; the end of the list is [io.EOF]. *)
Definition Document : Type := list Node.

(** [func (d *Decoder) Skip() error], on one token and on the content that
    is left of the element being skipped: the first error met, if any. *)
Fixpoint skipNode (n : Node) : option error :=
  match n with
  | Element _ content =>
      (fix skipAll (l : list Node) : option error :=
         match l with
         | [] => None
         | c :: rest =>
             match skipNode c with
             | Some e => Some e
             | None => skipAll rest
             end
         end) content
  | SyntaxError e => Some e
  | CharData _ | Other => None
  end.

Fixpoint Skip (content : list Node) : option error :=
  match content with
  | [] => None
  | c :: rest =>
      match skipNode c with
      | Some e => Some e
      | None => Skip rest
      end
  end.

(** The token loop of [Decoder.unmarshal] for a value that saves character
    data (here: a [string] field): character data found directly in the
    element is appended, elements inside it are skipped. *)
Fixpoint saveData (content : list Node) (data : string)
    : string * option error :=
  match content with
  | [] => (data, None)
  | CharData t :: rest => saveData rest (data ++ t)
  | Element _ inner :: rest =>
      match Skip inner with
      | Some e => (data, Some e)
      | None => saveData rest data
      end
  | Other :: rest => saveData rest data
  | SyntaxError e :: _ => (data, Some e)
  end.

(** [unmarshal] into a [string] field holding [old]: the field is set
    ([copyValue]) once the end of the element is reached, and keeps [old] when
    an error ends the loop first. *)
Definition unmarshalString (content : list Node) (old : string)
    : string * option error :=
  match saveData content "" with
  | (data, None) => (data, None)
  | (_, Some e) => (old, Some e)
  end.

(** The token loop of [Decoder.unmarshal] for a struct value [v] without a
    character-data field: each child element goes through [onElement] (the
    struct's [unmarshalPath], which skips an element no field matches). *)
Fixpoint unmarshalFields {T : Type}
    (onElement : StartElement -> list Node -> T -> T * option error)
    (content : list Node) (v : T) : T * option error :=
  match content with
  | [] => (v, None)
  | Element start inner :: rest =>
      match onElement start inner v with
      | (v', Some e) => (v', Some e)
      | (v', None) => unmarshalFields onElement rest v'
      end
  | CharData _ :: rest | Other :: rest => unmarshalFields onElement rest v
  | SyntaxError e :: _ => (v, Some e)
  end.

(** A field tagged [`xml:"name,attr"`]: every attribute of the start tag whose
    local name is [name] is copied into it, in order. *)
Definition unmarshalAttr (name : string) (attrs : list Attr) (old : string)
    : string :=
  fold_left
    (fun v a => if String.eqb (Local (AttrName a)) name then Value a else v)
    attrs old.

(** A field that is a slice of structs: the slice grows by a zero element,
    the element is read into it, and the slice shrinks back on an error. *)
Definition unmarshalAppend {T : Type} (zero : T)
    (unmarshalT : StartElement -> list Node -> T -> T * option error)
    (start : StartElement) (content : list Node) (v : list T)
    : list T * option error :=
  match unmarshalT start content zero with
  | (_, Some e) => (v, Some e)
  | (item, None) => (v ++ [item], None)
  end.

(** An element that matches no field of the struct. *)
Definition unmarshalSkip {T : Type} (content : list Node) (v : T)
    : T * option error :=
  (v, Skip content).

End xml.

(** ** The two feed schemas

    [type Atom1 struct] and [type Rss2 struct], with the reading of each that
    their field tags ask of [encoding/xml].  A tag without a name space matches
    an element of that local name in any name space. *)
Module Atom1.

(** [struct { URL string `xml:"href,attr"` }] *)
Module Link.
Record t : Type := mk { URL : string }.
Definition zero : t := mk "".
Definition unmarshal (start : xml.StartElement) (content : list xml.Node)
    (v : t) : t * option error :=
  let v := mk (xml.unmarshalAttr "href" (xml.Attrs start) (URL v)) in
  xml.unmarshalFields (fun _ inner v => xml.unmarshalSkip inner v) content v.
End Link.

(** The element type of [Items]. *)
Module Item.
Record t : Type := mk { Title : string; Link : Link.t; When : string }.
Definition zero : t := mk "" Link.zero "".
Definition field (start : xml.StartElement) (inner : list xml.Node) (v : t)
    : t * option error :=
  let name := xml.Local (xml.ElemName start) in
  if String.eqb name "title" then
    let (x, err) := xml.unmarshalString inner (Title v) in
    (mk x (Link v) (When v), err)
  else if String.eqb name "link" then
    let (x, err) := Link.unmarshal start inner (Link v) in
    (mk (Title v) x (When v), err)
  else if String.eqb name "updated" then
    let (x, err) := xml.unmarshalString inner (When v) in
    (mk (Title v) (Link v) x, err)
  else xml.unmarshalSkip inner v.
Definition unmarshal (start : xml.StartElement) (content : list xml.Node)
    (v : t) : t * option error :=
  xml.unmarshalFields field content v.
End Item.

Record t : Type := mk { Title : string; Link : Link.t; Items : list Item.t }.
Definition zero : t := mk "" Link.zero [].
Definition field (start : xml.StartElement) (inner : list xml.Node) (v : t)
    : t * option error :=
  let name := xml.Local (xml.ElemName start) in
  if String.eqb name "title" then
    let (x, err) := xml.unmarshalString inner (Title v) in
    (mk x (Link v) (Items v), err)
  else if String.eqb name "link" then
    let (x, err) := Link.unmarshal start inner (Link v) in
    (mk (Title v) x (Items v), err)
  else if String.eqb name "entry" then
    let (x, err) :=
      xml.unmarshalAppend Item.zero Item.unmarshal start inner (Items v) in
    (mk (Title v) (Link v) x, err)
  else xml.unmarshalSkip inner v.
Definition unmarshal (start : xml.StartElement) (content : list xml.Node)
    (v : t) : t * option error :=
  xml.unmarshalFields field content v.

End Atom1.

Module Rss2.

(** The element type of [Channel.Items]. *)
Module Item.
Record t : Type := mk { Title : string; Link : string; When : string }.
Definition zero : t := mk "" "" "".
Definition field (start : xml.StartElement) (inner : list xml.Node) (v : t)
    : t * option error :=
  let name := xml.Local (xml.ElemName start) in
  if String.eqb name "title" then
    let (x, err) := xml.unmarshalString inner (Title v) in
    (mk x (Link v) (When v), err)
  else if String.eqb name "link" then
    let (x, err) := xml.unmarshalString inner (Link v) in
    (mk (Title v) x (When v), err)
  else if String.eqb name "pubDate" then
    let (x, err) := xml.unmarshalString inner (When v) in
    (mk (Title v) (Link v) x, err)
  else xml.unmarshalSkip inner v.
Definition unmarshal (start : xml.StartElement) (content : list xml.Node)
    (v : t) : t * option error :=
  xml.unmarshalFields field content v.
End Item.

(** The type of the field [Channel]. *)
Module Channel.
Record t : Type := mk { Title : string; Link : string; Items : list Item.t }.
Definition zero : t := mk "" "" [].
Definition field (start : xml.StartElement) (inner : list xml.Node) (v : t)
    : t * option error :=
  let name := xml.Local (xml.ElemName start) in
  if String.eqb name "title" then
    let (x, err) := xml.unmarshalString inner (Title v) in
    (mk x (Link v) (Items v), err)
  else if String.eqb name "link" then
    let (x, err) := xml.unmarshalString inner (Link v) in
    (mk (Title v) x (Items v), err)
  else if String.eqb name "item" then
    let (x, err) :=
      xml.unmarshalAppend Item.zero Item.unmarshal start inner (Items v) in
    (mk (Title v) (Link v) x, err)
  else xml.unmarshalSkip inner v.
Definition unmarshal (start : xml.StartElement) (content : list xml.Node)
    (v : t) : t * option error :=
  xml.unmarshalFields field content v.
End Channel.

Record t : Type := mk { Channel : Channel.t }.
Definition zero : t := mk Channel.zero.
Definition field (start : xml.StartElement) (inner : list xml.Node) (v : t)
    : t * option error :=
  let name := xml.Local (xml.ElemName start) in
  if String.eqb name "channel" then
    let (x, err) := Channel.unmarshal start inner (Channel v) in
    (mk x, err)
  else xml.unmarshalSkip inner v.
Definition unmarshal (start : xml.StartElement) (content : list xml.Node)
    (v : t) : t * option error :=
  xml.unmarshalFields field content v.

End Rss2.

(** ** Format dispatcher *)

(** [type Feed struct { atom *Atom1; rss *Rss2 }]: a [nil] pointer is
    [None]. *)
Record Feed : Type := mkFeed {
  atom : option Atom1.t;
  rss  : option Rss2.t
}.

(** [var feed Feed]: both pointers are [nil]. *)
Definition newFeed : Feed := mkFeed None None.

(** [func (d *Decoder) DecodeElement(v any, start *StartElement) error] for
    [v] a pointer to a pointer field: a [nil] field is first set to a new zero
    struct, which is then read from the element whose content [d] is about to
    read. *)
Definition DecodeElement {T : Type} (zero : T)
    (unmarshalT : xml.StartElement -> list xml.Node -> T -> T * option error)
    (d : list xml.Node) (field : option T) (start : xml.StartElement)
    : option T * option error :=
  let v := match field with Some v => v | None => zero end in
  let (v', err) := unmarshalT start d v in
  (Some v', err).

(** [func (f *Feed) UnmarshalXML(d *xml.Decoder, start xml.StartElement)
    error] *)
Definition UnmarshalXML (f : Feed) (d : list xml.Node)
    (start : xml.StartElement) : Feed * option error :=
  if String.eqb (xml.Local (xml.ElemName start)) "rss" then
    let (p, err) := DecodeElement Rss2.zero Rss2.unmarshal d (rss f) start in
    (mkFeed (atom f) p, err)
  else
    let (p, err) := DecodeElement Atom1.zero Atom1.unmarshal d (atom f) start in
    (mkFeed p (rss f), err).

(** [func (d *Decoder) Decode(v any) error] for [v] a [*Feed]: tokens are read
    up to the first start element, which is handed to [UnmarshalXML] (a [Feed]
    is an [xml.Unmarshaler]); what follows the element is not read. *)
Fixpoint Decode (r : xml.Document) (feed : Feed) : Feed * option error :=
  match r with
  | [] => (feed, Some "EOF")
  | xml.Element start content :: _ => UnmarshalXML feed content start
  | xml.SyntaxError e :: _ => (feed, Some e)
  | xml.CharData _ :: rest | xml.Other :: rest => Decode rest feed
  end.

(** ** Logging and panics

    A line of the log, by the [log.Printf] or [log.Println] call that writes
    it and the values it formats. *)
Inductive LogLine : Type :=
| TimeParseError (title : string) (schema : string) (err : error)
| TimeToFetch (n : nat)
| Problem (e : error)
| DoneFetching.

(** How a call ends: it returns a value, having written some lines to the
    log, or it panics (a [nil] pointer is dereferenced). *)
Inductive Outcome (A : Type) : Type :=
| Returns (a : A) (logged : list LogLine)
| Panics.
Arguments Returns {A} a logged.
Arguments Panics {A}.

(** ** Layouts of package [time] *)
Definition RFC822 : string := "02 Jan 06 15:04 MST".
Definition RFC822Z : string := "02 Jan 06 15:04 -0700".
Definition RFC1123 : string := "Mon, 02 Jan 2006 15:04:05 MST".
Definition RFC1123Z : string := "Mon, 02 Jan 2006 15:04:05 -0700".
Definition RFC3339 : string := "2006-01-02T15:04:05Z07:00".

(** ** Entry normalizer *)
Section Normalizer.

(** [func Parse(layout, value string) (Time, error)] of package [time]. *)
Variable time_Parse : string -> string -> time.Time * option error.

(** The loop of [parseRssTimes]; [t] and [err] are the variables of these
    names. *)
Fixpoint parseRssTimes_range (fmts : list string) (ts : string)
    (t : time.Time) (err : option error) : time.Time * option error :=
  match fmts with
  | [] => (t, err)
  | f :: rest =>
      let (t, err) := time_Parse f ts in
      match err with
      | None => (t, None)
      | Some _ => parseRssTimes_range rest ts t err
      end
  end.

(** [func parseRssTimes(ts string) (time.Time, error)] *)
Definition parseRssTimes (ts : string) : time.Time * option error :=
  let fmts := [RFC822; RFC822Z; RFC1123; RFC1123Z] in
  parseRssTimes_range fmts ts time.zero None.

(** The body of [for _, i := range feed.atom.Items] in [tryParse], on the
    variable [entries] and the log. *)
Definition atomItem (a : Atom1.t) (acc : list Entry * list LogLine)
    (i : Atom1.Item.t) : list Entry * list LogLine :=
  let (entries, logged) := acc in
  let (when, err) := time_Parse RFC3339 (Atom1.Item.When i) in
  let logged :=
    match err with
    | Some e => logged ++ [TimeParseError (Atom1.Item.Title i) "atom" e]
    | None => logged
    end in
  (entries ++ [mkEntry (Atom1.Title a)
                       (Atom1.Link.URL (Atom1.Link a))
                       (Atom1.Item.Title i)
                       (Atom1.Link.URL (Atom1.Item.Link i))
                       when],
   logged).

(** The body of [for _, i := range feed.rss.Channel.Items]. *)
Definition rssItem (r : Rss2.t) (acc : list Entry * list LogLine)
    (i : Rss2.Item.t) : list Entry * list LogLine :=
  let (entries, logged) := acc in
  let (when, err) := parseRssTimes (Rss2.Item.When i) in
  let logged :=
    match err with
    | Some e => logged ++ [TimeParseError (Rss2.Item.Title i) "rss" e]
    | None => logged
    end in
  (entries ++ [mkEntry (Rss2.Channel.Title (Rss2.Channel r))
                       (Rss2.Channel.Link (Rss2.Channel r))
                       (Rss2.Item.Title i)
                       (Rss2.Item.Link i)
                       when],
   logged).

(** [func tryParse(r io.Reader) ([]Entry, error)] *)
Definition tryParse (r : xml.Document) : Outcome (list Entry * option error) :=
  let (feed, err) := Decode r newFeed in
  match err with
  | Some e => Returns ([], Some e) []
  | None =>
      match atom feed with
      | Some a =>
          let (entries, logged) :=
            fold_left (atomItem a) (Atom1.Items a) ([], []) in
          Returns (entries, None) logged
      | None =>
          match rss feed with
          | Some r =>
              let (entries, logged) :=
                fold_left (rssItem r) (Rss2.Channel.Items (Rss2.Channel r))
                          ([], []) in
              Returns (entries, None) logged
          | None => Panics
          end
      end
  end.

End Normalizer.

(** ** Single-feed fetcher and fan-out poller *)

(** What a [getFeed] goroutine sends, and on which of its two channels. *)
Inductive Message : Type :=
| OnFC (entries : list Entry)
| OnEC (e : error).

(** What [fetch] does that others see: a line of the log, or a batch sent on
    [db]. *)
Inductive Effect : Type :=
| Logged (l : LogLine)
| SentDB (feeds : list Entry).

Section Poller.

Variable time_Parse : string -> string -> time.Time * option error.

(** [url.Parse(s)] followed by [url.String()]: the text of the parsed URL, or
    the error of [url.Parse]. *)
Variable url_Parse : string -> string + error.

(** [http.Get(url)]: the document in [resp.Body], or the error of the
    transport. *)
Variable http_Get : string -> xml.Document + error.

(** [func getFeed(s string, fc chan []Entry, ec chan error)]: the one
    message it sends. *)
Definition getFeed (s : string) : Outcome Message :=
  match url_Parse s with
  | inr err => Returns (OnEC (s ++ ": " ++ err)%string) []
  | inl url =>
      match http_Get url with
      | inr err => Returns (OnEC (s ++ ": " ++ err)%string) []
      | inl body =>
          match tryParse time_Parse body with
          | Panics => Panics
          | Returns (_, Some err) logged =>
              Returns (OnEC (s ++ ": " ++ err)%string) logged
          | Returns (entries, None) logged => Returns (OnFC entries) logged
          end
      end
  end.

(** The first loop of [fetch]: [n], and the URLs a goroutine was started for,
    in order. *)
Definition spawn (urls : list string) : nat * list string :=
  fold_left
    (fun (acc : nat * list string) u =>
       let (n, started) := acc in
       if (String.length u =? 0)%nat then (n, started)
       else (S n, started ++ [u]))
    urls (0%nat, []).

(** The second loop of [fetch], [for i := 0; i < n; i++ { select ... }], on
    the messages in the order they are received.  [None]: the loop waits for
    a message that never comes. *)
Fixpoint join (n : nat) (arrivals : list Message) (feeds : list Entry)
    (errs : list error) : option (list Entry * list error) :=
  match n with
  | O => Some (feeds, errs)
  | S n =>
      match arrivals with
      | [] => None
      | OnFC f :: rest => join n rest (feeds ++ f) errs
      | OnEC e :: rest => join n rest feeds (errs ++ [e])
      end
  end.

(** [func fetch(db chan<- []Entry, urls []string)], on the messages in the
    order they are received. *)
Definition fetch (urls : list string) (arrivals : list Message)
    : option (list Effect) :=
  let (n, _) := spawn urls in
  match join n arrivals [] [] with
  | None => None
  | Some (feeds, errs) =>
      Some ([Logged (TimeToFetch (List.length urls))]
              ++ [SentDB feeds]
              ++ map (fun e => Logged (Problem e)) errs
              ++ [Logged DoneFetching])
  end.

(** The goroutine started for [u] sends [m]. *)
Definition sends (u : string) (m : Message) : Prop :=
  exists logged, getFeed u = Returns m logged.

(** The goroutines run concurrently: their messages are received in any
    order. *)
Definition Arrivals (urls : list string) (arrivals : list Message) : Prop :=
  exists msgs,
    Forall2 sends (snd (spawn urls)) msgs /\ Permutation msgs arrivals.

(** One poll cycle: a run of [fetch]. *)
Definition pollCycle (urls : list string) (trace : list Effect) : Prop :=
  exists arrivals, Arrivals urls arrivals /\ fetch urls arrivals = Some trace.

End Poller.

(** The batches sent on [db] in a trace. *)
Fixpoint sent (trace : list Effect) : list (list Entry) :=
  match trace with
  | [] => []
  | SentDB feeds :: rest => feeds :: sent rest
  | Logged _ :: rest => sent rest
  end.

(** ** Durable store *)

(** How the process goes on after a call that may end in [maybeDie]. *)
Inductive Run (A : Type) : Type :=
| Continues (a : A)
| Exits (status : Z) (stderr : string).
Arguments Continues {A} a.
Arguments Exits {A} status stderr.

(** [func maybeDie(err error)] *)
Definition maybeDie (err : option error) : Run unit :=
  match err with
  | Some e => Exits 1 (e ++ String "010" "")%string
  | None => Continues tt
  end.

(** The file named by [*cache]: its bytes, or [None] when [os.Open] fails
    (there is no such file). *)
Definition Disk : Type := option (list Byte.byte).

(** What the operating system answers during one [saveFeeds]: the error of
    [os.Create], if any, and the error of the write with the number of bytes
    that reached the file before it, if any. *)
Record SaveIO : Type := mkSaveIO {
  createErr : option error;
  writeErr : option (nat * error)
}.

Definition noFault : SaveIO := mkSaveIO None None.

Section Store.

(** [encoding/gob] for a value of type [[]Entry]: the bytes [Encode] has for
    the file, with the error on which it gives up when the value has a part
    that does not let itself be encoded; and what [Decode] makes of the bytes
    of a file. *)
Variable gob_Encode : list Entry -> list Byte.byte * option error.
Variable gob_Decode : list Byte.byte -> list Entry * option error.

(** [func (enc *Encoder) Encode(e any) error] on the file [f]. *)
Definition Encode (io : SaveIO) (feeds : list Entry) (f : list Byte.byte)
    : list Byte.byte * option error :=
  let (bytes, refused) := gob_Encode feeds in
  match writeErr io with
  | None => (f ++ bytes, refused)
  | Some (n, err) => (f ++ firstn n bytes, Some err)
  end.

(** [func saveFeeds(feeds []Entry)] *)
Definition saveFeeds (io : SaveIO) (feeds : list Entry) (disk : Disk)
    : Run Disk :=
  match maybeDie (createErr io) with
  | Exits status stderr => Exits status stderr
  | Continues _ =>
      let f := [] in
      let (f, _) := Encode io feeds f in
      Continues (Some f)
  end.

(** The loop [for _ = range tt { fetch(db, urls) }] of [fetchFeeds], for as
    many ticks as [cycles] has elements: the messages received in each cycle.
    [None]: a [fetch] does not return. *)
Fixpoint ticks (urls : list string) (cycles : list (list Message))
    : option (list Effect) :=
  match cycles with
  | [] => Some []
  | arrivals :: rest =>
      match fetch urls arrivals with
      | None => None
      | Some trace => option_map (app trace) (ticks urls rest)
      end
  end.

(** [func fetchFeeds(db chan<- []Entry, urls []string)].  When the cache file
    opens, its content is decoded and sent on [db]; when it does not, a first
    [fetch] is run, on the messages [first]. *)
Definition fetchFeeds (disk : Disk) (urls : list string)
    (first : list Message) (cycles : list (list Message))
    : Run (option (list Effect)) :=
  match disk with
  | None => Continues (ticks urls (first :: cycles))
  | Some f =>
      let (feeds, err) := gob_Decode f in
      match maybeDie err with
      | Exits status stderr => Exits status stderr
      | Continues _ =>
          Continues (option_map (app [SentDB feeds]) (ticks urls cycles))
      end
  end.

(** ** Cache actor *)

(** The communication of the [select] that proceeds in one turn of the loop
    of [feedCache]: a reader takes the value offered on [toShow], or a value
    comes on [toSave] (with what the operating system answers to the
    [saveFeeds] that follows). *)
Inductive Ready : Type :=
| ToShow
| ToSave (feeds : list Entry) (io : SaveIO).

(** What a turn of the loop does. *)
Inductive Event : Type :=
| Shown (feeds : list Entry)
| Installed (feeds : list Entry).

(** One turn of [for { select { ... } }], on the variable [feedz]. *)
Definition feedCache_select (c : Ready) (feedz : list Entry) (disk : Disk)
    : Event * Run (list Entry * Disk) :=
  match c with
  | ToShow => (Shown feedz, Continues (feedz, disk))
  | ToSave new io =>
      let feedz := new in
      match saveFeeds io feedz disk with
      | Exits status stderr => (Installed feedz, Exits status stderr)
      | Continues disk => (Installed feedz, Continues (feedz, disk))
      end
  end.

(** The loop, for as many turns as there are communications in [ready]. *)
Fixpoint feedCache_loop (ready : list Ready) (feedz : list Entry)
    (disk : Disk) : list Event * Run (list Entry * Disk) :=
  match ready with
  | [] => ([], Continues (feedz, disk))
  | c :: rest =>
      match feedCache_select c feedz disk with
      | (ev, Exits status stderr) => ([ev], Exits status stderr)
      | (ev, Continues (feedz, disk)) =>
          let (evs, r) := feedCache_loop rest feedz disk in
          (ev :: evs, r)
      end
  end.

(** [func feedCache(toSave <-chan []Entry, toShow chan<- []Entry)]:
    [var feedz []Entry] is [nil] when the loop starts. *)
Definition feedCache (ready : list Ready) (disk : Disk)
    : list Event * Run (list Entry * Disk) :=
  feedCache_loop ready [] disk.

End Store.

(** [func listFeeds(w io.Writer, since time.Time, fc <-chan []Entry)]: the
    entries given to the page template, for the value [feeds] received on
    [fc]. *)
Definition listFeeds
    (sort_Slice : forall A : Type, list A -> (A -> A -> bool) -> list A)
    (since : time.Time) (feeds : list Entry) : list Entry :=
  filterEntries sort_Slice feeds since.

(** ** Startup *)

Section Startup.

(** The file named by [*feeds]: the error of [os.Open], or the lines the
    [bufio.Scanner] reads from it ([in.Text()] at each [in.Scan()]) with the
    error it ends on ([in.Err()]). *)
Variable scanFeeds : string -> list string * option error + error.

(** The start of [func main()], up to the two [go] statements: the URL list
    handed to [fetchFeeds], from the arguments left by [flag.Parse] and the
    value of the flag [feeds]. *)
Definition main_urls (args : list string) (feeds : string)
    : Run (list string) :=
  if (List.length args =? 0)%nat && String.eqb feeds "" then
    Exits 1 ("I need the feed URL." ++ String "010" "")%string
  else
    let urls := [] in
    let urls := if (0 <? List.length args)%nat then urls ++ args else urls in
    if negb (String.eqb feeds "") then
      match scanFeeds feeds with
      | inr err =>
          match maybeDie (Some err) with
          | Exits status stderr => Exits status stderr
          | Continues _ => Continues urls
          end
      | inl (lines, scanErr) =>
          let urls := urls ++ lines in
          match maybeDie scanErr with
          | Exits status stderr => Exits status stderr
          | Continues _ => Continues urls
          end
      end
    else Continues urls.

End Startup.

(** ** The daily page

    The edition of the program that serves the page of one day: its
    [filterEntries] has an upper bound too, and [showDaily] groups the
    entries of the day by feed.  The rest of that edition is as above. *)
Module Day.

(** [type Site struct] and [type Daily struct] *)
Record Site : Type := mkSite { Name : string; Entries : list Entry }.

Record Daily : Type := mkDaily { Sites : list Site; Singles : list Entry }.

(** A Go [map[string][]Entry]: one pair for each key it holds. *)
Definition SiteMap : Type := list (string * list Entry).

(** [sites[s]]: the [nil] slice when [s] is no key of the map. *)
Fixpoint index (sites : SiteMap) (s : string) : list Entry :=
  match sites with
  | [] => []
  | (k, v) :: rest => if String.eqb s k then v else index rest s
  end.

(** [sites[s] = v] *)
Fixpoint assign (sites : SiteMap) (s : string) (v : list Entry) : SiteMap :=
  match sites with
  | [] => [(s, v)]
  | (k, w) :: rest =>
      if String.eqb s k then (k, v) :: rest else (k, w) :: assign rest s v
  end.

(** [for s := range sites] takes each key of the map once, in an order the
    language leaves open. *)
Definition rangeOrder (sites : SiteMap) (keys : list string) : Prop :=
  Permutation keys (map fst sites).

(** [day.AddDate(0, 0, 1)] for a [day] in UTC, which is what every caller of
    [showDaily] passes ([time.Now().UTC()], or the day before it): the same
    time of day on the next day, 24 hours later. *)
Definition AddDate_1day (day : time.Time) : time.Time :=
  time.mkTime (time.sec day + 86400) (time.nsec day) (time.loc day).

(** The function literal given to [sort.Slice] in [showDaily]:
    [d.Sites[i].Name < d.Sites[j].Name]. *)
Definition byName (a b : Site) : bool := String.ltb (Name a) (Name b).

Section Pages.

Variable sort_Slice : forall A : Type, list A -> (A -> A -> bool) -> list A.

(** [func filterEntries(feeds []Entry, begin, end time.Time) []Entry] *)
Definition filterEntries (feeds : list Entry) (begin end_ : time.Time)
    : list Entry :=
  let filtered :=
    fold_left
      (fun filtered i =>
         if time.After (When i) begin
            && (time.IsZero end_ || time.After end_ (When i))
         then filtered ++ [i] else filtered)
      feeds [] in
  sort_Slice Entry filtered moreRecent.

(** The first loop of [showDaily]. *)
Definition bySite (entries : list Entry) : SiteMap :=
  fold_left
    (fun sites e =>
       assign sites (FeedName e) (index sites (FeedName e) ++ [e]))
    entries [].

(** The second loop of [showDaily], on the keys in the order [range] takes
    them: [len(sites[s]) == 1] is the case of a slice of one element. *)
Definition rangeSites (sites : SiteMap) (keys : list string) : Daily :=
  fold_left
    (fun d s =>
       match index sites s with
       | [single] => mkDaily (Sites d) (Singles d ++ [single])
       | entries => mkDaily (Sites d ++ [mkSite s entries]) (Singles d)
       end)
    keys (mkDaily [] []).

(** [func showDaily(w io.Writer, day time.Time, fc <-chan []Entry)]: the
    value given to the page template, for the value [feeds] received on [fc]
    and the order [keys] in which [range] takes the keys. *)
Definition showDaily (day : time.Time) (feeds : list Entry)
    (keys : list string) : Daily :=
  let entries := filterEntries feeds day (AddDate_1day day) in
  let sites := bySite entries in
  let d := rangeSites sites keys in
  mkDaily (sort_Slice Site (Sites d) byName) (Singles d).

End Pages.

End Day.

(** * Models of the library code *)

(** ** Insertion sort *)

(** [insertionSort_func] of package [sort], which [sort.Slice] runs on a
    slice of fewer than twelve elements:
    [for i := a + 1; i < b; i++ {
       for j := i; j > a && less(j, j-1); j-- { swap(j, j-1) } }].
    The sorted prefix [x[a:i]] is kept reversed, so that the inner loop walks
    it from its head. *)
Fixpoint sinkLeft {A : Type} (less : A -> A -> bool) (v : A)
    (revPrefix : list A) : list A :=
  match revPrefix with
  | [] => [v]
  | p :: rest =>
      if less v p then p :: sinkLeft less v rest else v :: p :: rest
  end.

Definition insertionSort {A : Type} (x : list A) (less : A -> A -> bool)
    : list A :=
  rev (fold_left (fun revPrefix v => sinkLeft less v revPrefix) x []).

(** ** A model of [time.Parse]

    [parse] of package [time] (format.go), for the layout elements of the five
    layouts above.  It gives the sections on [time_Parse] an instance to run
    on.  A layout is held as the chunks [nextStdChunk] cuts it into; the error
    text is shortened; of the local time zone only the offset of a zone
    abbreviation is consulted, as only it moves the instant: whether a time
    with a zone gets the local location or one made for it, its offset is
    the same. *)
Module GoTime.

Local Open Scope Z_scope.

(** The [std...] constants met in the five layouts. *)
Inductive Std : Type :=
| stdMonth | stdZeroMonth | stdWeekDay | stdZeroDay | stdHour
| stdZeroMinute | stdZeroSecond | stdLongYear | stdYear | stdTZ
| stdISO8601ColonTZ | stdNumTZ.

(** A layout: prefix and [std] of each chunk, in order; the last chunk of
    [nextStdChunk], with [std == 0], has the empty prefix in all five. *)
Definition Layout : Type := list (string * Std).

Definition chunks (layout : string) : option Layout :=
  if String.eqb layout RFC822 then
    Some [("", stdZeroDay); (" ", stdMonth); (" ", stdYear); (" ", stdHour);
          (":", stdZeroMinute); (" ", stdTZ)]
  else if String.eqb layout RFC822Z then
    Some [("", stdZeroDay); (" ", stdMonth); (" ", stdYear); (" ", stdHour);
          (":", stdZeroMinute); (" ", stdNumTZ)]
  else if String.eqb layout RFC1123 then
    Some [("", stdWeekDay); (", ", stdZeroDay); (" ", stdMonth);
          (" ", stdLongYear); (" ", stdHour); (":", stdZeroMinute);
          (":", stdZeroSecond); (" ", stdTZ)]
  else if String.eqb layout RFC1123Z then
    Some [("", stdWeekDay); (", ", stdZeroDay); (" ", stdMonth);
          (" ", stdLongYear); (" ", stdHour); (":", stdZeroMinute);
          (":", stdZeroSecond); (" ", stdNumTZ)]
  else if String.eqb layout RFC3339 then
    Some [("", stdLongYear); ("-", stdZeroMonth); ("-", stdZeroDay);
          ("T", stdHour); (":", stdZeroMinute); (":", stdZeroSecond);
          ("", stdISO8601ColonTZ)]
  else None.

(** [s[n:]] and [s[:n]]. *)
Definition from (n : nat) (s : string) : string :=
  substring n (String.length s - n) s.
Definition upto (n : nat) (s : string) : string := substring 0 n s.

Definition code (c : ascii) : Z := Z.of_nat (nat_of_ascii c).

Definition digit (c : ascii) : bool := (48 <=? code c) && (code c <=? 57).

(** [func isDigit(s string, i int) bool] *)
Definition isDigit (s : string) (i : nat) : bool :=
  match String.get i s with
  | Some c => digit c
  | None => false
  end.

Definition digitAt (s : string) (i : nat) : Z :=
  match String.get i s with
  | Some c => code c - 48
  | None => 0
  end.

(** [func cutspace(s string) string] *)
Fixpoint cutspace (s : string) : string :=
  match s with
  | String " " rest => cutspace rest
  | _ => s
  end.

(** [func skip(value, prefix string) (string, error)]; [None] is [errBad].
    The fuel is the length of [prefix], which shrinks at each turn. *)
Fixpoint skip_fuel (fuel : nat) (value prefix : string) : option string :=
  match prefix with
  | EmptyString => Some value
  | String p prefix' =>
      match fuel with
      | O => None
      | S fuel =>
          if Ascii.eqb p " " then
            match value with
            | String v _ =>
                if Ascii.eqb v " "
                then skip_fuel fuel (cutspace value) (cutspace prefix)
                else None
            | EmptyString => skip_fuel fuel value (cutspace prefix)
            end
          else
            match value with
            | String v value' =>
                if Ascii.eqb v p then skip_fuel fuel value' prefix' else None
            | EmptyString => None
            end
      end
  end.

Definition skip (value prefix : string) : option string :=
  skip_fuel (String.length prefix) value prefix.

(** [func getnum(s string, fixed bool) (int, string, error)] *)
Definition getnum (s : string) (fixed : bool) : option (Z * string) :=
  if negb (isDigit s 0) then None
  else if negb (isDigit s 1) then
    if fixed then None else Some (digitAt s 0, from 1 s)
  else Some (digitAt s 0 * 10 + digitAt s 1, from 2 s).

(** [func leadingInt(s) (x uint64, rem, err)]; [None] is [errLeadingInt]. *)
Fixpoint leadingInt_from (s : string) (x : Z) : option (Z * string) :=
  match s with
  | String c rest =>
      if digit c then
        if 2 ^ 63 / 10 <? x then None
        else
          let x := x * 10 + (code c - 48) in
          if 2 ^ 63 <? x then None else leadingInt_from rest x
      else Some (x, s)
  | EmptyString => Some (x, s)
  end.

Definition leadingInt (s : string) : option (Z * string) :=
  leadingInt_from s 0.

(** [func atoi(s) (x int, err error)] *)
Definition atoi (s : string) : option Z :=
  let (neg, s) :=
    match s with
    | String "-" rest => (true, rest)
    | String "+" rest => (false, rest)
    | _ => (false, s)
    end in
  match leadingInt s with
  | Some (q, EmptyString) => Some (if neg then - q else q)
  | _ => None
  end.

(** [func match(s1, s2 string) bool]: equal but for the case of letters. *)
Definition matchChar (c1 c2 : ascii) : bool :=
  Ascii.eqb c1 c2 ||
  (let l1 := Z.lor (code c1) 32 in
   let l2 := Z.lor (code c2) 32 in
   (l1 =? l2) && (97 <=? l1) && (l1 <=? 122)).

Fixpoint matchFold (s1 s2 : string) : bool :=
  match s1, s2 with
  | String c1 r1, String c2 r2 => matchChar c1 c2 && matchFold r1 r2
  | _, _ => true
  end.

(** [func lookup(tab []string, val string) (int, string, error)], the index
    counted from [i]. *)
Fixpoint lookup_from (tab : list string) (val : string) (i : Z)
    : option (Z * string) :=
  match tab with
  | [] => None
  | v :: tab' =>
      let n := String.length v in
      if (n <=? String.length val)%nat && matchFold (upto n val) v
      then Some (i, from n val)
      else lookup_from tab' val (i + 1)
  end.

Definition lookup (tab : list string) (val : string) : option (Z * string) :=
  lookup_from tab val 0.

Definition shortDayNames : list string :=
  ["Sun"; "Mon"; "Tue"; "Wed"; "Thu"; "Fri"; "Sat"]%string.

Definition shortMonthNames : list string :=
  ["Jan"; "Feb"; "Mar"; "Apr"; "May"; "Jun"; "Jul"; "Aug"; "Sep"; "Oct";
   "Nov"; "Dec"]%string.

(** [func parseSignedOffset(value string) int] *)
Definition parseSignedOffset (value : string) : nat :=
  match value with
  | String sign rest =>
      if negb (Ascii.eqb sign "-" || Ascii.eqb sign "+") then 0%nat
      else
        match leadingInt rest with
        | None => 0%nat
        | Some (x, rem) =>
            if String.eqb rest rem then 0%nat
            else if 23 <? x then 0%nat
            else (String.length value - String.length rem)%nat
        end
  | EmptyString => 0%nat
  end.

(** [func parseGMT(value string) int] *)
Definition parseGMT (value : string) : nat :=
  let value := from 3 value in
  if (String.length value =? 0)%nat then 3%nat
  else (3 + parseSignedOffset value)%nat.

Definition upper (s : string) (i : nat) : bool :=
  match String.get i s with
  | Some c => (65 <=? code c) && (code c <=? 90)
  | None => false
  end.

(** The loop of [parseTimeZone] that counts the upper-case letters at the
    head of [value], six at most. *)
Fixpoint nUpper_from (fuel : nat) (value : string) (n : nat) : nat :=
  match fuel with
  | O => n
  | S fuel => if upper value n then nUpper_from fuel value (S n) else n
  end.

(** [func parseTimeZone(value string) (length int, ok bool)]; [None] is
    [ok == false]. *)
Definition parseTimeZone (value : string) : option nat :=
  if (String.length value <? 3)%nat then None
  else if (4 <=? String.length value)%nat &&
          (String.eqb (upto 4 value) "ChST" || String.eqb (upto 4 value) "MeST")
  then Some 4%nat
  else if String.eqb (upto 3 value) "GMT" then Some (parseGMT value)
  else if String.eqb (upto 1 value) "+" || String.eqb (upto 1 value) "-" then
    let length := parseSignedOffset value in
    if (0 <? length)%nat then Some length else None
  else
    match nUpper_from 6 value 0 with
    | 5%nat => if String.eqb (substring 4 1 value) "T" then Some 5%nat else None
    | 4%nat =>
        if String.eqb (substring 3 1 value) "T" ||
           String.eqb (upto 4 value) "WITA"
        then Some 4%nat else None
    | 3%nat => Some 3%nat
    | _ => None
    end.

(** The digits of a fractional second, counted from [n]: the loop
    [for ; n < len(value) && isDigit(value, n); n++ {}]. *)
Fixpoint fracEnd (fuel : nat) (value : string) (n : nat) : nat :=
  match fuel with
  | O => n
  | S fuel => if isDigit value n then fracEnd fuel value (S n) else n
  end.

Definition commaOrPeriod (s : string) : bool :=
  String.eqb (upto 1 s) "." || String.eqb (upto 1 s) ",".

(** [func parseNanoseconds(value, nbytes) (ns int, rangeErrString, err)] *)
Definition parseNanoseconds (value : string) (nbytes : nat) : option Z :=
  if negb (commaOrPeriod value) then None
  else
    let nbytes := Nat.min nbytes 10 in
    match atoi (substring 1 (nbytes - 1) value) with
    | None => None
    | Some ns =>
        if ns <? 0 then None
        else Some (ns * 10 ^ Z.of_nat (10 - nbytes))
    end.

(** The variables of [parse] that hold the time being constructed; [z] tells
    whether the location was set to [UTC]. *)
Record Fields : Type := mkFields {
  year : Z; month : Z; day : Z; hour : Z; min : Z; sec : Z; nsec : Z;
  z : bool; zoneOffset : Z; zoneName : string
}.

Definition start : Fields := mkFields 0 (-1) (-1) 0 0 0 0 false (-1) "".

Definition inRange (lo x hi : Z) : bool := (lo <=? x) && (x <? hi).

(** A zone offset [sign hh mm]: the last branch of the [stdNumTZ] case and
    what follows it. *)
Definition numericZone (sign hh mm : string) : option Z :=
  match getnum hh true, getnum mm true with
  | Some (hr, _), Some (mn, _) =>
      if (24 <? hr) || (60 <? mn) then None
      else if String.eqb sign "+" then Some ((hr * 60 + mn) * 60)
      else if String.eqb sign "-" then Some (- ((hr * 60 + mn) * 60))
      else None
  | _, _ => None
  end.

(** One turn of the loop of [parse]: the case of [switch std & stdMask].
    [None] is a return with a [ParseError], from [err] or from
    [rangeErrString]. *)
Definition parseStd (std : Std) (value : string) (f : Fields)
    : option (string * Fields) :=
  let set_zone off value :=
    Some (value, mkFields (year f) (month f) (day f) (hour f) (min f) (sec f)
                          (nsec f) (z f) off (zoneName f)) in
  match std with
  | stdYear =>
      if (String.length value <? 2)%nat then None
      else
        match atoi (upto 2 value) with
        | None => None
        | Some y =>
            let y := if 69 <=? y then y + 1900 else y + 2000 in
            Some (from 2 value,
                  mkFields y (month f) (day f) (hour f) (min f) (sec f)
                           (nsec f) (z f) (zoneOffset f) (zoneName f))
        end
  | stdLongYear =>
      if (String.length value <? 4)%nat || negb (isDigit value 0) then None
      else
        match atoi (upto 4 value) with
        | None => None
        | Some y =>
            Some (from 4 value,
                  mkFields y (month f) (day f) (hour f) (min f) (sec f)
                           (nsec f) (z f) (zoneOffset f) (zoneName f))
        end
  | stdMonth =>
      match lookup shortMonthNames value with
      | None => None
      | Some (m, value) =>
          Some (value,
                mkFields (year f) (m + 1) (day f) (hour f) (min f) (sec f)
                         (nsec f) (z f) (zoneOffset f) (zoneName f))
      end
  | stdZeroMonth =>
      match getnum value true with
      | None => None
      | Some (m, value) =>
          if (m <=? 0) || (12 <? m) then None
          else
            Some (value,
                  mkFields (year f) m (day f) (hour f) (min f) (sec f)
                           (nsec f) (z f) (zoneOffset f) (zoneName f))
      end
  | stdWeekDay =>
      match lookup shortDayNames value with
      | None => None
      | Some (_, value) => Some (value, f)
      end
  | stdZeroDay =>
      match getnum value true with
      | None => None
      | Some (d, value) =>
          Some (value,
                mkFields (year f) (month f) d (hour f) (min f) (sec f)
                         (nsec f) (z f) (zoneOffset f) (zoneName f))
      end
  | stdHour =>
      match getnum value false with
      | None => None
      | Some (h, value) =>
          if negb (inRange 0 h 24) then None
          else
            Some (value,
                  mkFields (year f) (month f) (day f) h (min f) (sec f)
                           (nsec f) (z f) (zoneOffset f) (zoneName f))
      end
  | stdZeroMinute =>
      match getnum value true with
      | None => None
      | Some (m, value) =>
          if negb (inRange 0 m 60) then None
          else
            Some (value,
                  mkFields (year f) (month f) (day f) (hour f) m (sec f)
                           (nsec f) (z f) (zoneOffset f) (zoneName f))
      end
  | stdZeroSecond =>
      match getnum value true with
      | None => None
      | Some (s, value) =>
          if negb (inRange 0 s 60) then None
          else
            let f := mkFields (year f) (month f) (day f) (hour f) (min f) s
                              (nsec f) (z f) (zoneOffset f) (zoneName f) in
            if (2 <=? String.length value)%nat && commaOrPeriod value &&
               isDigit value 1
            then
              (* no fractional second in these layouts, one in the input *)
              let n := fracEnd (String.length value) value 2 in
              match parseNanoseconds value n with
              | None => None
              | Some ns =>
                  Some (from n value,
                        mkFields (year f) (month f) (day f) (hour f) (min f)
                                 (sec f) ns (z f) (zoneOffset f) (zoneName f))
              end
            else Some (value, f)
      end
  | stdISO8601ColonTZ =>
      if String.eqb (upto 1 value) "Z" then
        Some (from 1 value,
              mkFields (year f) (month f) (day f) (hour f) (min f) (sec f)
                       (nsec f) true (zoneOffset f) (zoneName f))
      else if (String.length value <? 6)%nat then None
      else if negb (String.eqb (substring 3 1 value) ":") then None
      else
        match numericZone (upto 1 value) (substring 1 2 value)
                          (substring 4 2 value) with
        | None => None
        | Some off => set_zone off (from 6 value)
        end
  | stdNumTZ =>
      if (String.length value <? 5)%nat then None
      else
        match numericZone (upto 1 value) (substring 1 2 value)
                          (substring 3 2 value) with
        | None => None
        | Some off => set_zone off (from 5 value)
        end
  | stdTZ =>
      if (3 <=? String.length value)%nat && String.eqb (upto 3 value) "UTC"
      then
        Some (from 3 value,
              mkFields (year f) (month f) (day f) (hour f) (min f) (sec f)
                       (nsec f) true (zoneOffset f) (zoneName f))
      else
        match parseTimeZone value with
        | None => None
        | Some n =>
            Some (from n value,
                  mkFields (year f) (month f) (day f) (hour f) (min f) (sec f)
                           (nsec f) (z f) (zoneOffset f) (upto n value))
        end
  end.

(** The loop of [parse]: [skip] the prefix of each chunk, read its value;
    after the last chunk no text may be left. *)
Fixpoint parseChunks (layout : Layout) (value : string) (f : Fields)
    : option Fields :=
  match layout with
  | [] => if (String.length value =? 0)%nat then Some f else None
  | (prefix, std) :: layout' =>
      match skip value prefix with
      | None => None
      | Some value =>
          match parseStd std value f with
          | None => None
          | Some (value, f) => parseChunks layout' value f
          end
      end
  end.

Definition isLeap (year : Z) : bool :=
  (year mod 4 =? 0) && (negb (year mod 100 =? 0) || (year mod 400 =? 0)).

(** [func daysIn(m Month, year int) int] *)
Definition daysIn (m year : Z) : Z :=
  if (m =? 2) && isLeap year then 29
  else nth (Z.to_nat (m - 1))
           [31; 28; 31; 30; 31; 30; 31; 31; 30; 31; 30; 31] 0.

(** Days from January 1 of year 1 to the first of month [m] of [year]. *)
Definition daysBefore (m year : Z) : Z :=
  let y := year - 1 in
  365 * y + y / 4 - y / 100 + y / 400
  + nth (Z.to_nat (m - 1))
        [0; 31; 59; 90; 120; 151; 181; 212; 243; 273; 304; 334] 0
  + (if (3 <=? m) && isLeap year then 1 else 0).

(** [func Date(year, month, day, hour, min, sec, nsec, UTC) Time], for values
    in their ranges. *)
Definition Date (f : Fields) : time.Time :=
  time.mkTime
    (((daysBefore (month f) (year f) + (day f - 1)) * 24 + hour f) * 3600
     + min f * 60 + sec f)
    (nsec f) time.UTC.

Definition addSec (t : time.Time) (d : Z) : time.Time :=
  time.mkTime (time.sec t + d) (time.nsec t) (time.loc t).

(** [t.setLoc(loc)], for [loc] the local location or one made by
    [FixedZone], with [offset] at the instant of [t]: neither is [UTC]. *)
Definition setLoc (t : time.Time) (offset : Z) : time.Time :=
  time.mkTime (time.sec t) (time.nsec t) (time.Zone offset).

(** The offset of the zone [parse] makes up for an abbreviation the local
    time zone does not know: zero, but hours for [GMT] with a number. *)
Definition fakeOffset (zoneName : string) : Z :=
  if (3 <? String.length zoneName)%nat && String.eqb (upto 3 zoneName) "GMT"
  then
    match atoi (from 3 zoneName) with
    | Some offset => offset * 3600
    | None => 0
    end
  else 0.

(** What [parse] reads of the local time zone: [Location.lookupName], the
    offset of a zone abbreviation at a given second, if the zone knows it. *)
Definition Location : Type := string -> Z -> option Z.

(** A machine whose local time zone is UTC. *)
Definition UTC : Location := fun _ _ => None.

(** The end of [parse], after the loop. *)
Definition finish (local : Location) (f : Fields) : option time.Time :=
  let f := mkFields (year f) (if month f <? 0 then 1 else month f)
                    (if day f <? 0 then 1 else day f)
                    (hour f) (min f) (sec f) (nsec f)
                    (z f) (zoneOffset f) (zoneName f) in
  if (day f <? 1) || (daysIn (month f) (year f) <? day f) then None
  else if z f then Some (Date f)
  else if negb (zoneOffset f =? -1) then
    Some (setLoc (addSec (Date f) (- zoneOffset f)) (zoneOffset f))
  else if negb (String.eqb (zoneName f) "") then
    match local (zoneName f) (time.sec (Date f)) with
    | Some offset => Some (setLoc (addSec (Date f) (- offset)) offset)
    | None => Some (setLoc (Date f) (fakeOffset (zoneName f)))
    end
  else Some (Date f).

(** [func Parse(layout, value string) (Time, error)], on a machine whose
    local time zone is [local]. *)
Definition Parse (local : Location) (layout value : string)
    : time.Time * option error :=
  let bad :=
    (time.zero, Some ("parsing time: cannot parse " ++ value)%string) in
  match chunks layout with
  | None => bad
  | Some l =>
      match parseChunks l value start with
      | None => bad
      | Some f =>
          match finish local f with
          | None => bad
          | Some t => (t, None)
          end
      end
  end.

End GoTime.

(** ** A codec to run the store on

    A plain, self-delimiting encoding of [[]Entry], standing for
    [encoding/gob] where an instance is needed: numbers bit by bit, strings
    and lists behind their length.  As [Encode] of [encoding/gob] does, it
    writes what describes the type first and the value after it, and gives
    up before the value when a [Time] of it refuses to be encoded. *)
Module PlainCodec.

Import Byte.

Fixpoint putPos (p : positive) : list byte :=
  match p with
  | xH => [x02]
  | xO p => x00 :: putPos p
  | xI p => x01 :: putPos p
  end.

Fixpoint getPos (bs : list byte) : option (positive * list byte) :=
  match bs with
  | x02 :: rest => Some (xH, rest)
  | x00 :: rest =>
      match getPos rest with
      | Some (p, rest) => Some (xO p, rest)
      | None => None
      end
  | x01 :: rest =>
      match getPos rest with
      | Some (p, rest) => Some (xI p, rest)
      | None => None
      end
  | _ => None
  end.

Definition putZ (z : Z) : list byte :=
  match z with
  | Z0 => [x00]
  | Zpos p => x01 :: putPos p
  | Zneg p => x02 :: putPos p
  end.

Definition getZ (bs : list byte) : option (Z * list byte) :=
  match bs with
  | x00 :: rest => Some (Z0, rest)
  | x01 :: rest =>
      match getPos rest with
      | Some (p, rest) => Some (Zpos p, rest)
      | None => None
      end
  | x02 :: rest =>
      match getPos rest with
      | Some (p, rest) => Some (Zneg p, rest)
      | None => None
      end
  | _ => None
  end.

Definition putString (s : string) : list byte :=
  let bs := list_byte_of_string s in
  putZ (Z.of_nat (List.length bs)) ++ bs.

Definition getString (bs : list byte) : option (string * list byte) :=
  match getZ bs with
  | Some (n, rest) =>
      if (Z.of_nat (List.length rest) <? n)%Z then None
      else Some (string_of_list_byte (firstn (Z.to_nat n) rest),
                 skipn (Z.to_nat n) rest)
  | None => None
  end.

Definition putLocation (l : time.Location) : list byte :=
  match l with
  | time.UTC => [x00]
  | time.Zone offset => x01 :: putZ offset
  end.

Definition getLocation (bs : list byte) : option (time.Location * list byte) :=
  match bs with
  | x00 :: rest => Some (time.UTC, rest)
  | x01 :: rest =>
      match getZ rest with
      | Some (offset, rest) => Some (time.Zone offset, rest)
      | None => None
      end
  | _ => None
  end.

Definition putEntry (e : Entry) : list byte :=
  putString (FeedName e) ++ putString (FeedURL e) ++ putString (Title e)
  ++ putString (URL e) ++ putZ (time.sec (When e)) ++ putZ (time.nsec (When e))
  ++ putLocation (time.loc (When e)).

Definition getEntry (bs : list byte) : option (Entry * list byte) :=
  match getString bs with
  | None => None
  | Some (feedName, bs) =>
  match getString bs with
  | None => None
  | Some (feedURL, bs) =>
  match getString bs with
  | None => None
  | Some (title, bs) =>
  match getString bs with
  | None => None
  | Some (url, bs) =>
  match getZ bs with
  | None => None
  | Some (s, bs) =>
  match getZ bs with
  | None => None
  | Some (ns, bs) =>
  match getLocation bs with
  | None => None
  | Some (l, bs) =>
      Some (mkEntry feedName feedURL title url (time.mkTime s ns l), bs)
  end end end end end end end.

Definition putEntries (feeds : list Entry) : list byte :=
  flat_map putEntry feeds.

Fixpoint getEntries (n : nat) (bs : list byte)
    : option (list Entry * list byte) :=
  match n with
  | O => Some ([], bs)
  | S n =>
      match getEntry bs with
      | None => None
      | Some (e, bs) =>
          match getEntries n bs with
          | None => None
          | Some (es, bs) => Some (e :: es, bs)
          end
      end
  end.

(** What stands for the description of the type. *)
Definition descriptor : list byte := [x03].

(** The first [Time] of the value that refuses to be encoded, if any. *)
Fixpoint refusal (feeds : list Entry) : option error :=
  match feeds with
  | [] => None
  | e :: rest =>
      match time.MarshalBinary_err (When e) with
      | Some err => Some err
      | None => refusal rest
      end
  end.

Definition Marshal (feeds : list Entry) : list byte * option error :=
  match refusal feeds with
  | Some err => (descriptor, Some err)
  | None =>
      (descriptor ++ putZ (Z.of_nat (List.length feeds)) ++ putEntries feeds,
       None)
  end.

Definition Unmarshal (bs : list byte) : list Entry * option error :=
  match bs with
  | [] => ([], Some "EOF")
  | x03 :: [] => ([], Some "unexpected EOF")
  | x03 :: bs =>
      match getZ bs with
      | None => ([], Some "unexpected EOF")
      | Some (n, rest) =>
          match getEntries (Z.to_nat n) rest with
          | Some (feeds, []) => (feeds, None)
          | Some (feeds, _ :: _) => (feeds, Some "extra data in buffer")
          | None => ([], Some "unexpected EOF")
          end
      end
  | _ => ([], Some "gob: unknown type id or corrupted data")
  end.

End PlainCodec.

(** * Vocabulary of the properties *)

(** The reversed prefix of [insertionSort] is sorted backwards: nothing in
    it is less than what follows it there. *)
Definition backwards {A : Type} (less : A -> A -> bool) : list A -> Prop :=
  StronglySorted (fun p q => less p q = false).

(** The root element of a document: the first start element the decoder
    reads, with the content it encloses; none when the decoder meets an error
    or the end of the input first. *)
Fixpoint root (r : xml.Document) : option (xml.StartElement * list xml.Node) :=
  match r with
  | [] => None
  | xml.Element start content :: _ => Some (start, content)
  | xml.SyntaxError _ :: _ => None
  | xml.CharData _ :: rest | xml.Other :: rest => root rest
  end.

(** The local name of the root element. *)
Definition rootLocal (start : xml.StartElement) : string :=
  xml.Local (xml.ElemName start).

(** The error [Decoder.Token] meets up to the end of the root element, if
    any: a syntax error, or the end of the input before a root element. *)
Fixpoint tokenError (r : xml.Document) : option error :=
  match r with
  | [] => Some "EOF"
  | xml.Element _ content :: _ => xml.Skip content
  | xml.SyntaxError e :: _ => Some e
  | xml.CharData _ :: rest | xml.Other :: rest => tokenError rest
  end.

(** The child elements of a given local name. *)
Definition named (name : string) (n : xml.Node) : bool :=
  match n with
  | xml.Element start _ => String.eqb (xml.Local (xml.ElemName start)) name
  | _ => false
  end.

(** The number of elements of a given local name in a document, at any
    depth. *)
Fixpoint countNamed (name : string) (n : xml.Node) : nat :=
  match n with
  | xml.Element start content =>
      (if String.eqb (xml.Local (xml.ElemName start)) name then 1 else 0)
      + list_sum (map (countNamed name) content)
  | _ => 0
  end.

(** An [entry] element read on its own. *)
Definition atomItemOf (n : xml.Node) : Atom1.Item.t :=
  match n with
  | xml.Element start inner =>
      fst (Atom1.Item.unmarshal start inner Atom1.Item.zero)
  | _ => Atom1.Item.zero
  end.

Section NormalizerVocabulary.

Variable time_Parse : string -> string -> time.Time * option error.

(** The entry [tryParse] makes of an Atom item, and the line it logs for it
    if any. *)
Definition atomEntry (a : Atom1.t) (i : Atom1.Item.t) : Entry :=
  mkEntry (Atom1.Title a) (Atom1.Link.URL (Atom1.Link a))
          (Atom1.Item.Title i) (Atom1.Link.URL (Atom1.Item.Link i))
          (fst (time_Parse RFC3339 (Atom1.Item.When i))).

Definition atomWarning (i : Atom1.Item.t) : list LogLine :=
  match snd (time_Parse RFC3339 (Atom1.Item.When i)) with
  | Some e => [TimeParseError (Atom1.Item.Title i) "atom" e]
  | None => []
  end.

(** The same for an RSS item. *)
Definition rssEntry (c : Rss2.t) (i : Rss2.Item.t) : Entry :=
  mkEntry (Rss2.Channel.Title (Rss2.Channel c))
          (Rss2.Channel.Link (Rss2.Channel c))
          (Rss2.Item.Title i) (Rss2.Item.Link i)
          (fst (parseRssTimes time_Parse (Rss2.Item.When i))).

Definition rssWarning (i : Rss2.Item.t) : list LogLine :=
  match snd (parseRssTimes time_Parse (Rss2.Item.When i)) with
  | Some e => [TimeParseError (Rss2.Item.Title i) "rss" e]
  | None => []
  end.

End NormalizerVocabulary.

(** Whether [value] parses with [layout]. *)
Definition parses (time_Parse : string -> string -> time.Time * option error)
    (value layout : string) : bool :=
  match snd (time_Parse layout value) with
  | None => true
  | Some _ => false
  end.

(** The URLs a poll cycle fetches: those of the list that are not the empty
    string. *)
Definition launched (urls : list string) : list string :=
  filter (fun u => negb (String.length u =? 0)%nat) urls.

(** The entries and the errors among the messages received. *)
Definition batchOf (arrivals : list Message) : list Entry :=
  flat_map (fun m => match m with OnFC f => f | OnEC _ => [] end) arrivals.

Definition errorsOf (arrivals : list Message) : list error :=
  flat_map (fun m => match m with OnFC _ => [] | OnEC e => [e] end) arrivals.

(** The snapshot in place after a trace that starts with [feedz] in place:
    the one of the last [Installed], if any. *)
Definition current (feedz : list Entry) (trace : list Event) : list Entry :=
  fold_left
    (fun feedz ev => match ev with Installed new => new | Shown _ => feedz end)
    trace feedz.

(** The cache file after the communications [ready], when no [saveFeeds]
    ends the process: what the last install wrote, if there was one. *)
Definition written
    (gob_Encode : list Entry -> list Byte.byte * option error) (disk : Disk)
    (ready : list Ready) : Disk :=
  fold_left
    (fun disk c =>
       match c with
       | ToShow => disk
       | ToSave new io => Some (fst (Encode gob_Encode io new []))
       end)
    ready disk.

(** The event that answers a communication. *)
Definition answers (c : Ready) (ev : Event) : Prop :=
  match c, ev with
  | ToShow, Shown _ => True
  | ToSave new _, Installed feeds => feeds = new
  | _, _ => False
  end.

(** What the feed at [u] contributes to a poll cycle: its entries when the
    fetch succeeds, the error when it fails. *)
Section PollerVocabulary.

Variable time_Parse : string -> string -> time.Time * option error.
Variable url_Parse : string -> string + error.
Variable http_Get : string -> xml.Document + error.

Definition feedEntries (u : string) : list Entry :=
  match getFeed time_Parse url_Parse http_Get u with
  | Returns (OnFC entries) _ => entries
  | _ => []
  end.

Definition feedErrors (u : string) : list error :=
  match getFeed time_Parse url_Parse http_Get u with
  | Returns (OnEC e) _ => [e]
  | _ => []
  end.

End PollerVocabulary.

(** The instant of a time, which times of different locations share. *)
Definition instant (t : time.Time) : Z * Z := (time.sec t, time.nsec t).

(** A snapshot all of whose times [encoding/gob] encodes. *)
Definition encodable (feeds : list Entry) : Prop :=
  Forall (fun e => time.MarshalBinary_err (When e) = None) feeds.

(** A run of the cache actor in which every snapshot that comes is one. *)
Definition storable (ready : list Ready) : Prop :=
  Forall (fun c => match c with
                   | ToShow => True
                   | ToSave feeds _ => encodable feeds
                   end) ready.

(** A run of the cache actor during which the operating system reports no
    error. *)
Definition faultless (ready : list Ready) : Prop :=
  Forall (fun c => match c with
                   | ToShow => True
                   | ToSave _ io => io = noFault
                   end) ready.

(** An [item] element read on its own, and the [item] elements an [rss]
    element holds: the children named [item] of its children named
    [channel]. *)
Definition rssItemOf (n : xml.Node) : Rss2.Item.t :=
  match n with
  | xml.Element start inner =>
      fst (Rss2.Item.unmarshal start inner Rss2.Item.zero)
  | _ => Rss2.Item.zero
  end.

Definition itemsIn (content : list xml.Node) : list xml.Node :=
  flat_map
    (fun n =>
       match n with
       | xml.Element start inner =>
           if String.eqb (xml.Local (xml.ElemName start)) "channel"
           then filter (named "item") inner
           else []
       | _ => []
       end)
    content.

(** The daily page: the entries of one feed in a list; what the second loop
    of [showDaily] adds to the page for one key of the map; the entries a
    page shows. *)
Definition ofFeed (name : string) (entries : list Entry) : list Entry :=
  filter (fun e => String.eqb (FeedName e) name) entries.

Definition singleOf (sites : Day.SiteMap) (s : string) : list Entry :=
  match Day.index sites s with
  | [single] => [single]
  | _ => []
  end.

Definition siteOf (sites : Day.SiteMap) (s : string) : list Day.Site :=
  match Day.index sites s with
  | [_] => []
  | entries => [Day.mkSite s entries]
  end.

Definition shown (d : Day.Daily) : list Entry :=
  Day.Singles d ++ flat_map Day.Entries (Day.Sites d).

(** * Samples *)

(** Sample entries: three dated ones, [T1 > T2 > T3], and one whose date did
    not parse. *)
Definition entryAt (title : string) (when : time.Time) : Entry :=
  mkEntry "Feed" "http://feed/" title "http://feed/item" when.
Definition T1 : time.Time := time.mkTime 63745142400 0 time.UTC.
Definition T2 : time.Time := time.mkTime 63745056000 500 time.UTC.
Definition T3 : time.Time := time.mkTime 63745056000 0 time.UTC.
Definition undated : Entry := entryAt "no date" time.zero.

(** A sample Atom document and a sample RSS 2.0 document. *)
Definition el (name : string) (attrs : list xml.Attr) (content : list xml.Node)
    : xml.Node :=
  xml.Element (xml.mkStart (xml.mkName "" name) attrs) content.
Definition text (name data : string) : xml.Node :=
  el name [] [xml.CharData data].
Definition href (url : string) : xml.Node :=
  el "link" [xml.mkAttr (xml.mkName "" "href") url] [].

Definition atomSample : xml.Document :=
  [xml.Other;
   el "feed" []
     [text "title" "Feed A"; href "http://a/";
      el "entry" []
        [text "title" "A"; href "http://a/1";
         text "updated" "2021-01-02T00:00:00Z"];
      el "entry" []
        [text "title" "B"; href "http://a/2"; text "updated" "yesterday"]]].

Definition rssSample : xml.Document :=
  [el "rss" []
     [el "channel" []
        [text "title" "Feed R"; text "link" "http://r/";
         el "item" []
           [text "title" "R1"; text "link" "http://r/1";
            text "pubDate" "Mon, 02 Jan 2006 15:04:05 -0700"];
         el "item" []
           [text "title" "R2"; text "link" "http://r/2";
            text "pubDate" "soon"]]]].

(** A document that is no feed at all: a page with two elements named
    [entry] directly in its root, and a third one deeper. *)
Definition page : xml.Document :=
  [el "html" []
     [el "head" [] [text "title" "Not found"];
      el "entry" [] [];
      el "body" [] [el "entry" [] []; xml.CharData "404"];
      el "entry" [] [text "title" "x"]]].

(** A small network: two feeds, and nothing else. *)
Definition netParse (s : string) : string + error :=
  if String.eqb s "::" then inr "missing protocol scheme" else inl s.

Definition netGet (url : string) : xml.Document + error :=
  if String.eqb url "http://a/" then inl atomSample
  else if String.eqb url "http://r/" then inl rssSample
  else inr "no such host".

Definition netItems (u : string) : list Entry :=
  match getFeed (GoTime.Parse GoTime.UTC) netParse netGet u with
  | Returns (OnFC entries) _ => entries
  | _ => []
  end.

Definition netURLs : list string := ["http://a/"; ""; "http://r/"].


(** A network on which nothing answers. *)
Definition downGet (url : string) : xml.Document + error :=
  inr "connection refused".

(** An Atom document that breaks off after its first entry. *)
Definition brokenSample : xml.Document :=
  [el "feed" []
     [text "title" "Feed A";
      el "entry" [] [text "title" "A"; text "updated" "2021-01-02T00:00:00Z"];
      xml.SyntaxError "XML syntax error: unexpected EOF"]].

(** An Atom document whose entry is dated in a zone one minute west of UTC,
    and the entry it makes. *)
Definition westSample : xml.Document :=
  [el "feed" []
     [text "title" "Feed W"; href "http://w/";
      el "entry" []
        [text "title" "W"; href "http://w/1";
         text "updated" "2021-01-02T00:00:00-00:01"]]].

Definition west : Entry :=
  mkEntry "Feed W" "http://w/" "W" "http://w/1"
    (time.mkTime 63745142460 0 (time.Zone (-60))).

(** A poll cycle on the small network in which one of two fetches fails, and
    its error is the first message to come; and a poll cycle while nothing
    answers. *)
Definition mixedURLs : list string := ["http://a/"; ""; "http://nowhere/"].

Definition mixedTrace : list Effect :=
  match
    fetch mixedURLs
      [OnEC "http://nowhere/: no such host";
       OnFC (feedEntries (GoTime.Parse GoTime.UTC) netParse netGet
               "http://a/")]
  with
  | Some trace => trace
  | None => []
  end.

Definition downTrace : list Effect :=
  match
    fetch netURLs
      [OnEC "http://r/: connection refused";
       OnEC "http://a/: connection refused"]
  with
  | Some trace => trace
  | None => []
  end.

(** A feeds file of two lines, one that is too long to read to its end, and
    no other file. *)
Definition sampleScan (name : string) : list string * option error + error :=
  if String.eqb name "feeds.txt" then inl (["http://r/"; "http://b/"], None)
  else if String.eqb name "long.txt" then
    inl (["http://r/"], Some "bufio.Scanner: token too long")
  else inr ("open " ++ name ++ ": no such file or directory")%string.

(** A snapshot for the daily page: two entries of feed B and one of feed A
    on the day that starts at [day0], one of feed C the day after, and one
    without date. *)
Definition day0 : time.Time := time.mkTime 63745056000 0 time.UTC.

Definition post (feed title : string) (s : Z) : Entry :=
  mkEntry feed "http://feed/" title "http://feed/item"
    (time.mkTime s 0 time.UTC).

Definition snapshot : list Entry :=
  [post "B" "b1" 63745056060; post "A" "a1" 63745060000;
   post "C" "c1" 63745142500; post "B" "b2" 63745100000;
   mkEntry "D" "http://feed/" "d1" "http://feed/item" time.zero].

(** * Properties *)

(** ** Order of instants *)

Lemma After_spec t u :
  time.After t u = true <->
  (time.sec u < time.sec t
   \/ (time.sec t = time.sec u /\ time.nsec u < time.nsec t))%Z.
Proof.
  unfold time.After.
  rewrite orb_true_iff, andb_true_iff, !Z.ltb_lt, Z.eqb_eq. tauto.
Qed.

Lemma After_false t u :
  time.After t u = false <->
  (time.sec t < time.sec u
   \/ (time.sec t = time.sec u /\ time.nsec t <= time.nsec u))%Z.
Proof.
  destruct (time.After t u) eqn:E.
  - apply After_spec in E. split; [discriminate | lia].
  - split; [intros _ | reflexivity].
    assert (H : ~ (time.sec u < time.sec t
                   \/ (time.sec t = time.sec u
                       /\ time.nsec u < time.nsec t))%Z).
    { intro H. apply After_spec in H. congruence. }
    lia.
Qed.

Lemma After_irrefl t : time.After t t = false.
Proof. apply After_false. lia. Qed.

Lemma After_trans t u v :
  time.After t u = true -> time.After u v = true -> time.After t v = true.
Proof. rewrite !After_spec. lia. Qed.

Lemma After_neg_trans t u v :
  time.After t u = false -> time.After u v = false -> time.After t v = false.
Proof. rewrite !After_false. lia. Qed.

Lemma After_zero_IsZero t :
  time.IsZero t = true -> time.After t time.zero = false.
Proof.
  unfold time.IsZero. rewrite andb_true_iff, !Z.eqb_eq. intros [Hs Hn].
  apply After_false. simpl. lia.
Qed.

Lemma moreRecent_ordering : LessOrdering moreRecent.
Proof.
  unfold moreRecent. split; intros.
  - apply After_irrefl.
  - eapply After_trans; eassumption.
  - eapply After_neg_trans; eassumption.
Qed.

(** ** Insertion sort meets the contract of [sort.Slice] *)
Section InsertionSort.

Context {A : Type} (less : A -> A -> bool).

Lemma sinkLeft_Permutation v revPrefix :
  Permutation (sinkLeft less v revPrefix) (v :: revPrefix).
Proof.
  induction revPrefix as [|p rest IH]; simpl.
  - reflexivity.
  - destruct (less v p).
    + rewrite IH. apply perm_swap.
    + reflexivity.
Qed.

Lemma insertion_loop_Permutation x revPrefix :
  Permutation (fold_left (fun r v => sinkLeft less v r) x revPrefix)
              (revPrefix ++ x).
Proof.
  revert revPrefix. induction x as [|v x IH]; intro revPrefix; simpl.
  - rewrite app_nil_r. reflexivity.
  - rewrite IH, sinkLeft_Permutation. apply Permutation_middle.
Qed.

Lemma insertionSort_Permutation x : Permutation (insertionSort x less) x.
Proof.
  unfold insertionSort.
  rewrite <- Permutation_rev.
  apply (insertion_loop_Permutation x []).
Qed.

Hypothesis ordering : LessOrdering less.

Lemma less_asym a b : less a b = true -> less b a = false.
Proof.
  intro Hab. destruct (less b a) eqn:Hba; [|reflexivity].
  pose proof (less_trans less ordering _ _ _ Hab Hba) as Haa.
  rewrite (less_irrefl less ordering) in Haa. discriminate.
Qed.

Lemma sinkLeft_backwards v revPrefix :
  backwards less revPrefix -> backwards less (sinkLeft less v revPrefix).
Proof.
  unfold backwards.
  induction revPrefix as [|p rest IH]; simpl; intro Hs.
  - repeat constructor.
  - inversion Hs as [|? ? Hrest Hp]; subst.
    destruct (less v p) eqn:Hvp.
    + constructor; [auto|].
      rewrite Forall_forall in *. intros y Hy.
      apply (Permutation_in _ (sinkLeft_Permutation v rest)) in Hy.
      destruct Hy as [<-|Hy]; [apply less_asym; assumption | auto].
    + constructor; [assumption|].
      constructor; [assumption|].
      rewrite Forall_forall in *. intros y Hy.
      eapply (less_neg_trans less ordering); eauto.
Qed.

Lemma insertion_loop_backwards x revPrefix :
  backwards less revPrefix ->
  backwards less (fold_left (fun r v => sinkLeft less v r) x revPrefix).
Proof.
  revert revPrefix. induction x as [|v x IH]; intros revPrefix Hs; simpl.
  - assumption.
  - apply IH, sinkLeft_backwards, Hs.
Qed.

Lemma backwards_rev l :
  backwards less l -> StronglySorted (fun a b => less b a = false) (rev l).
Proof.
  unfold backwards. induction 1 as [|p l Hl IH Hp]; simpl.
  - constructor.
  - clear Hl.
    assert (Hp' : Forall (fun q => less p q = false) (rev l)).
    { rewrite Forall_forall in *. intros q Hq. apply Hp, in_rev, Hq. }
    clear Hp. induction IH as [|a m Hm IHm Ha]; simpl.
    + repeat constructor.
    + inversion Hp'; subst. constructor; [auto|].
      apply Forall_app; split; [assumption|]. repeat constructor. assumption.
Qed.

Lemma insertionSort_IsSorted x : IsSorted less (insertionSort x less).
Proof.
  unfold IsSorted, insertionSort.
  apply StronglySorted_Sorted, backwards_rev, insertion_loop_backwards.
  constructor.
Qed.

End InsertionSort.

(** ** Query/Filter *)

Section FilterProperties.

Variable sort_Slice : forall A : Type, list A -> (A -> A -> bool) -> list A.

Hypothesis sort_Slice_Permutation :
  forall A (x : list A) less, Permutation (sort_Slice A x less) x.

Hypothesis sort_Slice_IsSorted :
  forall A (x : list A) less,
    LessOrdering less -> IsSorted less (sort_Slice A x less).

(** The first loop of [filterEntries] appends the entries after [begin], in
    the order of [feeds]. *)
Lemma filtered_loop begin feeds acc :
  fold_left
    (fun filtered i =>
       if time.After (When i) begin then filtered ++ [i] else filtered)
    feeds acc
  = acc ++ filter (fun i => time.After (When i) begin) feeds.
Proof.
  revert acc. induction feeds as [|i feeds IH]; intro acc; simpl.
  - symmetry. apply app_nil_r.
  - rewrite IH. destruct (time.After (When i) begin); simpl.
    + rewrite <- app_assoc. reflexivity.
    + reflexivity.
Qed.

Lemma filterEntries_Permutation feeds begin :
  Permutation (filterEntries sort_Slice feeds begin)
              (filter (fun i => time.After (When i) begin) feeds).
Proof.
  unfold filterEntries. rewrite sort_Slice_Permutation, filtered_loop.
  reflexivity.
Qed.

Lemma filterEntries_In feeds begin e :
  In e (filterEntries sort_Slice feeds begin) <->
  In e feeds /\ time.After (When e) begin = true.
Proof.
  pose proof (filterEntries_Permutation feeds begin) as Hperm.
  pose proof (filter_In (fun i => time.After (When i) begin) e feeds) as Hin.
  simpl in Hin. rewrite <- Hin. split; apply Permutation_in.
  - exact Hperm.
  - symmetry. exact Hperm.
Qed.

Lemma filterEntries_descending feeds begin :
  StronglySorted (fun a b => time.After (When b) (When a) = false)
                 (filterEntries sort_Slice feeds begin).
Proof.
  unfold filterEntries. apply Sorted_StronglySorted.
  - intros a b c Hab Hbc. eapply After_neg_trans; eassumption.
  - apply (sort_Slice_IsSorted Entry _ moreRecent moreRecent_ordering).
Qed.

(** C1, as amended: [filterEntries] returns exactly the entries of the
    snapshot whose [When] is strictly after the cutoff (each as often as the
    snapshot holds it), most recent first: no entry is after one that precedes
    it.  With the zero time as cutoff the entries selected are the entries
    of the snapshot whose [When] is after the zero time. *)
Theorem filterEntries_after_cutoff_descending feeds begin :
  Permutation (filterEntries sort_Slice feeds begin)
              (filter (fun i => time.After (When i) begin) feeds)
  /\ StronglySorted (fun a b => time.After (When b) (When a) = false)
                    (filterEntries sort_Slice feeds begin)
  /\ (forall e, In e (filterEntries sort_Slice feeds time.zero) <->
                In e feeds /\ time.After (When e) time.zero = true).
Proof.
  split; [apply filterEntries_Permutation|].
  split; [apply filterEntries_descending|].
  intro e. apply filterEntries_In.
Qed.

(** An entry whose [When] is the zero time is in no listing whose cutoff is
    not before the zero time. *)
Lemma filterEntries_undated feeds begin e :
  time.IsZero (When e) = true ->
  time.After time.zero begin = false ->
  ~ In e (filterEntries sort_Slice feeds begin).
Proof.
  intros Hz Hbegin Hin. apply filterEntries_In in Hin as [_ Hafter].
  apply After_spec in Hafter. apply After_false in Hbegin.
  unfold time.IsZero in Hz. apply andb_true_iff in Hz as [Hs Hn].
  apply Z.eqb_eq in Hs, Hn. simpl in Hbegin. lia.
Qed.

(** With nothing to sort, nothing is listed. *)
Lemma filterEntries_nil begin : filterEntries sort_Slice [] begin = [].
Proof.
  apply Permutation_nil. symmetry.
  apply (filterEntries_Permutation [] begin).
Qed.

End FilterProperties.

(** The theorem on a snapshot of three dated entries and an undated one, with
    [T3] as cutoff, sorted by insertion. *)
Lemma filterEntries_after_cutoff_descending_witness :
  let feeds := [entryAt "c" T3; undated; entryAt "a" T1; entryAt "b" T2] in
  Permutation (filterEntries (@insertionSort) feeds T3)
              (filter (fun i => time.After (When i) T3) feeds)
  /\ StronglySorted (fun a b => time.After (When b) (When a) = false)
                    (filterEntries (@insertionSort) feeds T3)
  /\ (forall e, In e (filterEntries (@insertionSort) feeds time.zero) <->
                In e feeds /\ time.After (When e) time.zero = true).
Proof.
  exact (filterEntries_after_cutoff_descending
           (@insertionSort)
           (fun A x less => insertionSort_Permutation less x)
           (fun A x less H => insertionSort_IsSorted less H x)
           [entryAt "c" T3; undated; entryAt "a" T1; entryAt "b" T2] T3).
Defined.

(** The sample of the specification: with [T1 > T2 > T3] and [T3] as cutoff
    the listing is [T1; T2]; with the zero time as cutoff, all three. *)
Example filterEntries_sample :
  filterEntries (@insertionSort)
    [entryAt "c" T3; entryAt "a" T1; entryAt "b" T2] T3
  = [entryAt "a" T1; entryAt "b" T2]
  /\ filterEntries (@insertionSort)
       [entryAt "c" T3; entryAt "a" T1; entryAt "b" T2] time.zero
     = [entryAt "a" T1; entryAt "b" T2; entryAt "c" T3].
Proof. split; vm_compute; reflexivity. Qed.

(** C1, as stated, fails: the snapshot holds an entry whose [When] is the
    zero time, the cutoff is the zero time, and the entry is not selected. *)
Lemma filterEntries_zero_cutoff_drops_undated :
  In undated [entryAt "a" T1; undated]
  /\ filterEntries (@insertionSort) [entryAt "a" T1; undated] time.zero
     = [entryAt "a" T1]
  /\ ~ In undated
         (filterEntries (@insertionSort) [entryAt "a" T1; undated] time.zero).
Proof.
  assert (H : filterEntries (@insertionSort) [entryAt "a" T1; undated]
                            time.zero
              = [entryAt "a" T1]) by (vm_compute; reflexivity).
  split; [right; left; reflexivity|]. split; [exact H|].
  rewrite H. intros [Heq|[]]. discriminate Heq.
Qed.

(** ** Format dispatcher *)

Lemma Decode_root r start content :
  root r = Some (start, content) ->
  Decode r newFeed = UnmarshalXML newFeed content start.
Proof.
  induction r as [|n r IH]; simpl; [discriminate|].
  destruct n; intro H; try discriminate; auto.
  injection H as -> ->. reflexivity.
Qed.

Lemma Decode_root_atom r start content :
  root r = Some (start, content) ->
  String.eqb (rootLocal start) "rss" = false ->
  Decode r newFeed
  = (mkFeed (Some (fst (Atom1.unmarshal start content Atom1.zero))) None,
     snd (Atom1.unmarshal start content Atom1.zero)).
Proof.
  intros Hroot Hname. rewrite (Decode_root _ _ _ Hroot).
  unfold UnmarshalXML, DecodeElement, newFeed. unfold rootLocal in Hname.
  rewrite Hname. simpl.
  destruct (Atom1.unmarshal start content Atom1.zero). reflexivity.
Qed.

(** C4: the schema of a feed document is decided by the local name of its root
    element alone.  When it is [rss] the [rss] field is populated, with the
    element read as an [Rss2], and [atom] stays [nil]; otherwise the [atom]
    field is populated, with the element read as an [Atom1], and [rss] stays
    [nil].  In both cases the error is that of the one decoding. *)
Theorem Decode_dispatches_on_root_local_name r start content :
  root r = Some (start, content) ->
  let (feed, err) := Decode r newFeed in
  if String.eqb (rootLocal start) "rss"
  then rss feed = Some (fst (Rss2.unmarshal start content Rss2.zero))
       /\ atom feed = None
       /\ err = snd (Rss2.unmarshal start content Rss2.zero)
  else atom feed = Some (fst (Atom1.unmarshal start content Atom1.zero))
       /\ rss feed = None
       /\ err = snd (Atom1.unmarshal start content Atom1.zero).
Proof.
  intro Hroot. rewrite (Decode_root _ _ _ Hroot).
  unfold UnmarshalXML, rootLocal, DecodeElement, newFeed. simpl.
  destruct (String.eqb (xml.Local (xml.ElemName start)) "rss").
  - destruct (Rss2.unmarshal start content Rss2.zero) as [v err]. simpl.
    repeat split.
  - destruct (Atom1.unmarshal start content Atom1.zero) as [v err]. simpl.
    repeat split.
Qed.

(** The dispatch on the two samples. *)
Lemma Decode_dispatches_on_root_local_name_witness :
  (let (feed, err) := Decode atomSample newFeed in
   atom feed
   = Some (Atom1.mk "Feed A" (Atom1.Link.mk "http://a/")
             [Atom1.Item.mk "A" (Atom1.Link.mk "http://a/1")
                            "2021-01-02T00:00:00Z";
              Atom1.Item.mk "B" (Atom1.Link.mk "http://a/2") "yesterday"])
   /\ rss feed = None
   /\ err = None)
  /\ (let (feed, err) := Decode rssSample newFeed in
      rss feed
      = Some (Rss2.mk
                (Rss2.Channel.mk "Feed R" "http://r/"
                   [Rss2.Item.mk "R1" "http://r/1"
                                 "Mon, 02 Jan 2006 15:04:05 -0700";
                    Rss2.Item.mk "R2" "http://r/2" "soon"]))
      /\ atom feed = None
      /\ err = None).
Proof.
  split.
  - exact (Decode_dispatches_on_root_local_name atomSample _ _ eq_refl).
  - exact (Decode_dispatches_on_root_local_name rssSample _ _ eq_refl).
Defined.

(** ** Errors of the decoder

    Reading an element into any of the structs of this program fails exactly
    when skipping the element would: on the first syntax error in it. *)

Lemma skipNode_Element start inner :
  xml.skipNode (xml.Element start inner) = xml.Skip inner.
Proof.
  simpl. induction inner as [|c rest IH]; simpl.
  - reflexivity.
  - destruct (xml.skipNode c); [reflexivity | exact IH].
Qed.

Lemma saveData_error content data :
  snd (xml.saveData content data) = xml.Skip content.
Proof.
  revert data. induction content as [|n rest IH]; intro data.
  - reflexivity.
  - destruct n as [start inner|t| |e].
    + change (xml.Skip (xml.Element start inner :: rest))
        with (match xml.skipNode (xml.Element start inner) with
              | Some e => Some e
              | None => xml.Skip rest
              end).
      rewrite skipNode_Element. simpl.
      destruct (xml.Skip inner); [reflexivity | apply IH].
    + apply IH.
    + apply IH.
    + reflexivity.
Qed.

Lemma unmarshalString_error content old :
  snd (xml.unmarshalString content old) = xml.Skip content.
Proof.
  unfold xml.unmarshalString.
  rewrite <- (saveData_error content "").
  destruct (xml.saveData content "") as [data [e|]]; reflexivity.
Qed.

Lemma unmarshalString_ok content old :
  xml.Skip content = None ->
  xml.unmarshalString content old = (fst (xml.saveData content ""), None).
Proof.
  intro H. unfold xml.unmarshalString.
  rewrite <- (saveData_error content "") in H.
  destruct (xml.saveData content "") as [data err]. simpl in *.
  subst err. reflexivity.
Qed.

Section FieldErrors.

Context {T : Type}.
Variable onElement :
  xml.StartElement -> list xml.Node -> T -> T * option error.

Hypothesis onElement_error :
  forall start inner v, snd (onElement start inner v) = xml.Skip inner.

Lemma unmarshalFields_error content v :
  snd (xml.unmarshalFields onElement content v) = xml.Skip content.
Proof.
  revert v. induction content as [|n rest IH]; intro v.
  - reflexivity.
  - destruct n as [start inner|t| |e].
    + change (xml.Skip (xml.Element start inner :: rest))
        with (match xml.skipNode (xml.Element start inner) with
              | Some e => Some e
              | None => xml.Skip rest
              end).
      rewrite skipNode_Element. simpl.
      specialize (onElement_error start inner v).
      destruct (onElement start inner v) as [v' [e|]]; simpl in *;
        rewrite <- onElement_error; [reflexivity | apply IH].
    + apply IH.
    + apply IH.
    + reflexivity.
Qed.

End FieldErrors.

Lemma unmarshalAppend_error {T : Type} (zero : T) unmarshalT start inner v :
  (forall s c x, snd (unmarshalT s c x) = xml.Skip c) ->
  snd (xml.unmarshalAppend zero unmarshalT start inner v) = xml.Skip inner.
Proof.
  intro H. unfold xml.unmarshalAppend. specialize (H start inner zero).
  destruct (unmarshalT start inner zero) as [item [e|]]; exact H.
Qed.

(** The cases of a [field] function: a string field, a struct or slice field,
    or no field. *)
Ltac field_error lemmas :=
  let start := fresh "start" in
  let inner := fresh "inner" in
  let v := fresh "v" in
  intros start inner v;
  cbv beta delta [Atom1.Item.field Atom1.field
    Rss2.Item.field Rss2.Channel.field Rss2.field] zeta;
  repeat match goal with
         | |- context [if ?b then _ else _] => destruct b
         end;
  try match goal with
      | |- snd (let (x, err) := ?call in _) = _ =>
          let H := fresh in
          assert (H : snd call = xml.Skip inner)
            by (first [apply unmarshalString_error | lemmas]);
          destruct call; exact H
      end;
  try reflexivity.

Lemma Atom1_Link_error start inner v :
  snd (Atom1.Link.unmarshal start inner v) = xml.Skip inner.
Proof.
  unfold Atom1.Link.unmarshal. apply unmarshalFields_error.
  intros. reflexivity.
Qed.

Lemma Atom1_Item_error start inner v :
  snd (Atom1.Item.unmarshal start inner v) = xml.Skip inner.
Proof.
  unfold Atom1.Item.unmarshal. apply unmarshalFields_error.
  field_error ltac:(apply Atom1_Link_error).
Qed.

Lemma Atom1_error start inner v :
  snd (Atom1.unmarshal start inner v) = xml.Skip inner.
Proof.
  unfold Atom1.unmarshal. apply unmarshalFields_error.
  field_error ltac:(first [ apply Atom1_Link_error
                          | apply unmarshalAppend_error, Atom1_Item_error ]).
Qed.

Lemma Rss2_Item_error start inner v :
  snd (Rss2.Item.unmarshal start inner v) = xml.Skip inner.
Proof.
  unfold Rss2.Item.unmarshal. apply unmarshalFields_error.
  field_error ltac:(fail).
Qed.

Lemma Rss2_Channel_error start inner v :
  snd (Rss2.Channel.unmarshal start inner v) = xml.Skip inner.
Proof.
  unfold Rss2.Channel.unmarshal. apply unmarshalFields_error.
  field_error ltac:(apply unmarshalAppend_error, Rss2_Item_error).
Qed.

Lemma Rss2_error start inner v :
  snd (Rss2.unmarshal start inner v) = xml.Skip inner.
Proof.
  unfold Rss2.unmarshal. apply unmarshalFields_error.
  field_error ltac:(apply Rss2_Channel_error).
Qed.

Lemma Decode_error r : snd (Decode r newFeed) = tokenError r.
Proof.
  induction r as [|n r IH]; [reflexivity|].
  destruct n as [start content|t| |e]; simpl; auto.
  unfold UnmarshalXML, DecodeElement. simpl.
  destruct (String.eqb (xml.Local (xml.ElemName start)) "rss").
  - rewrite <- (Rss2_error start content Rss2.zero).
    destruct (Rss2.unmarshal start content Rss2.zero); reflexivity.
  - rewrite <- (Atom1_error start content Atom1.zero).
    destruct (Atom1.unmarshal start content Atom1.zero); reflexivity.
Qed.

(** After a [Decode] without error one of the two pointers is set. *)
Lemma Decode_populates r feed :
  Decode r newFeed = (feed, None) ->
  (exists a, atom feed = Some a /\ rss feed = None)
  \/ (exists c, rss feed = Some c /\ atom feed = None).
Proof.
  induction r as [|n r IH]; simpl; [discriminate|].
  destruct n as [start content|t| |e]; auto; [|discriminate].
  unfold UnmarshalXML, DecodeElement, newFeed. simpl.
  destruct (String.eqb (xml.Local (xml.ElemName start)) "rss").
  - destruct (Rss2.unmarshal start content Rss2.zero). intro H.
    injection H as <- _. right. eexists. split; reflexivity.
  - destruct (Atom1.unmarshal start content Atom1.zero). intro H.
    injection H as <- _. left. eexists. split; reflexivity.
Qed.

(** ** Entry normalizer *)

Lemma Skip_cons n rest :
  xml.Skip (n :: rest) = None -> xml.skipNode n = None /\ xml.Skip rest = None.
Proof.
  simpl. destruct (xml.skipNode n); [discriminate | auto].
Qed.

(** In an element the decoder reads to its end, [Items] gets one item for
    each child element named [entry], in order. *)
Lemma Atom1_Items start content v :
  xml.Skip content = None ->
  Atom1.Items (fst (Atom1.unmarshal start content v))
  = Atom1.Items v ++ map atomItemOf (filter (named "entry") content).
Proof.
  unfold Atom1.unmarshal. clear start.
  revert v. induction content as [|n rest IH]; intros v Hskip.
  - simpl. symmetry. apply app_nil_r.
  - apply Skip_cons in Hskip as [Hn Hrest].
    destruct n as [start inner|t| |e]; simpl; auto; [|discriminate].
    rewrite skipNode_Element in Hn.
    unfold Atom1.field at 1.
    destruct (String.eqb (xml.Local (xml.ElemName start)) "title") eqn:Etitle;
      [|destruct (String.eqb (xml.Local (xml.ElemName start)) "link") eqn:Elink;
        [|destruct (String.eqb (xml.Local (xml.ElemName start)) "entry")
            eqn:Eentry]].
    + apply String.eqb_eq in Etitle. rewrite Etitle. simpl.
      rewrite (unmarshalString_ok _ _ Hn). rewrite IH by assumption.
      reflexivity.
    + apply String.eqb_eq in Elink. rewrite Elink. simpl.
      pose proof (Atom1_Link_error start inner (Atom1.Link v)) as Herr.
      rewrite Hn in Herr.
      destruct (Atom1.Link.unmarshal start inner (Atom1.Link v)) as [x err].
      simpl in Herr. subst err. rewrite IH by assumption. reflexivity.
    + unfold xml.unmarshalAppend.
      pose proof (Atom1_Item_error start inner Atom1.Item.zero) as Herr.
      rewrite Hn in Herr.
      destruct (Atom1.Item.unmarshal start inner Atom1.Item.zero)
        as [item err] eqn:Eitem.
      simpl in Herr. subst err. rewrite IH by assumption. simpl.
      rewrite Eitem, <- app_assoc. reflexivity.
    + unfold xml.unmarshalSkip. rewrite Hn. apply IH. assumption.
Qed.

Section NormalizerProperties.

Variable time_Parse : string -> string -> time.Time * option error.

Lemma atomItem_step a entries logged i :
  atomItem time_Parse a (entries, logged) i
  = (entries ++ [atomEntry time_Parse a i], logged ++ atomWarning time_Parse i).
Proof.
  unfold atomItem, atomEntry, atomWarning.
  destruct (time_Parse RFC3339 (Atom1.Item.When i)) as [when [e|]]; simpl.
  - reflexivity.
  - rewrite app_nil_r. reflexivity.
Qed.

Lemma atomItem_loop a items entries logged :
  fold_left (atomItem time_Parse a) items (entries, logged)
  = (entries ++ map (atomEntry time_Parse a) items,
     logged ++ flat_map (atomWarning time_Parse) items).
Proof.
  revert entries logged.
  induction items as [|i items IH]; intros entries logged;
    cbn [fold_left map flat_map].
  - rewrite !app_nil_r. reflexivity.
  - rewrite atomItem_step, IH, <- !app_assoc. reflexivity.
Qed.

Lemma rssItem_step c entries logged i :
  rssItem time_Parse c (entries, logged) i
  = (entries ++ [rssEntry time_Parse c i], logged ++ rssWarning time_Parse i).
Proof.
  unfold rssItem, rssEntry, rssWarning.
  destruct (parseRssTimes time_Parse (Rss2.Item.When i)) as [when [e|]]; simpl.
  - reflexivity.
  - rewrite app_nil_r. reflexivity.
Qed.

Lemma rssItem_loop c items entries logged :
  fold_left (rssItem time_Parse c) items (entries, logged)
  = (entries ++ map (rssEntry time_Parse c) items,
     logged ++ flat_map (rssWarning time_Parse) items).
Proof.
  revert entries logged.
  induction items as [|i items IH]; intros entries logged;
    cbn [fold_left map flat_map].
  - rewrite !app_nil_r. reflexivity.
  - rewrite rssItem_step, IH, <- !app_assoc. reflexivity.
Qed.

(** [tryParse] after a [Decode] without error: one entry for each item the
    decoder read, in order, and one line of log for each date that did not
    parse. *)
Lemma tryParse_decoded r feed :
  Decode r newFeed = (feed, None) ->
  tryParse time_Parse r
  = match atom feed, rss feed with
    | Some a, _ =>
        Returns (map (atomEntry time_Parse a) (Atom1.Items a), None)
                (flat_map (atomWarning time_Parse) (Atom1.Items a))
    | None, Some c =>
        let items := Rss2.Channel.Items (Rss2.Channel c) in
        Returns (map (rssEntry time_Parse c) items, None)
                (flat_map (rssWarning time_Parse) items)
    | None, None => Panics
    end.
Proof.
  intro H. unfold tryParse. rewrite H.
  destruct (atom feed) as [a|]; [|destruct (rss feed) as [c|]].
  - rewrite atomItem_loop. reflexivity.
  - rewrite rssItem_loop. reflexivity.
  - reflexivity.
Qed.

(** [tryParse] returns in every case (no [nil] pointer is dereferenced),
    and its error is the decoder's own. *)
Lemma tryParse_returns r :
  exists entries logged,
    tryParse time_Parse r = Returns (entries, tokenError r) logged.
Proof.
  rewrite <- Decode_error.
  destruct (Decode r newFeed) as [feed [e|]] eqn:H.
  - unfold tryParse. rewrite H. simpl. eauto.
  - rewrite (tryParse_decoded _ _ H). simpl.
    destruct (Decode_populates _ _ H) as [(a & -> & _)|(c & -> & ->)]; eauto.
Qed.

(** C9, as amended: a document whose root element is not named [rss], and
    which the decoder reads to the end of that element, parses without error
    whatever it holds: the result has one entry for each child of the root
    element named [entry], none if there is none.  And whatever the document,
    [tryParse] returns, with no other error than the one the decoder met. *)
Theorem tryParse_not_rss_succeeds r start content :
  root r = Some (start, content) ->
  String.eqb (rootLocal start) "rss" = false ->
  xml.Skip content = None ->
  (exists entries logged,
      tryParse time_Parse r = Returns (entries, None) logged
      /\ List.length entries
         = List.length (filter (named "entry") content))
  /\ (forall r', exists entries logged,
         tryParse time_Parse r' = Returns (entries, tokenError r') logged).
Proof.
  intros Hroot Hname Hskip. split; [|apply tryParse_returns].
  pose proof (Decode_root_atom r start content Hroot Hname) as Hdec.
  rewrite Atom1_error, Hskip in Hdec.
  rewrite (tryParse_decoded _ _ Hdec). cbn [atom].
  do 2 eexists. split; [reflexivity|].
  rewrite length_map, Atom1_Items by assumption. simpl.
  apply length_map.
Qed.

End NormalizerProperties.

(** The theorem on the sample page: its two entries are the children of
    the root. *)
Lemma tryParse_not_rss_succeeds_witness :
  (exists entries logged,
      tryParse (GoTime.Parse GoTime.UTC) page = Returns (entries, None) logged
      /\ List.length entries = 2%nat)
  /\ (forall r', exists entries logged,
         tryParse (GoTime.Parse GoTime.UTC) r'
         = Returns (entries, tokenError r') logged).
Proof.
  exact (tryParse_not_rss_succeeds
           (GoTime.Parse GoTime.UTC) page _ _ eq_refl eq_refl eq_refl).
Defined.

(** C9, as stated, fails: the sample page is read to its end, its root is
    not named [rss], it holds three elements named [entry], and [tryParse]
    returns two entries: the element inside [body] is skipped with it. *)
Lemma tryParse_skips_nested_entry :
  tokenError page = None
  /\ list_sum (map (countNamed "entry") page) = 3%nat
  /\ tryParse (GoTime.Parse GoTime.UTC) page
     = Returns ([mkEntry "" "" "" "" time.zero;
                 mkEntry "" "" "x" "" time.zero], None)
               [TimeParseError "" "atom" "parsing time: cannot parse ";
                TimeParseError "x" "atom" "parsing time: cannot parse "].
Proof.
  split; [reflexivity|]. split; [reflexivity|]. vm_compute. reflexivity.
Qed.

(** ** Dates that do not parse *)

(** [Parse] of the model returns the zero time with every error. *)
Lemma GoTime_Parse_error_zero local layout value t e :
  GoTime.Parse local layout value = (t, Some e) -> t = time.zero.
Proof.
  unfold GoTime.Parse.
  destruct (GoTime.chunks layout) as [l|]; [|congruence].
  destruct (GoTime.parseChunks l value GoTime.start) as [f|]; [|congruence].
  destruct (GoTime.finish local f); congruence.
Qed.

Section DateFailures.

Variable time_Parse : string -> string -> time.Time * option error.

(** What [tryParse] relies on when it keeps the time of a failed parse:
    [time.Parse] returns [Time{}] with every error. *)
Hypothesis time_Parse_error_zero :
  forall layout value t e,
    time_Parse layout value = (t, Some e) -> t = time.zero.

Lemma parseRssTimes_error_zero ts t e :
  parseRssTimes time_Parse ts = (t, Some e) -> t = time.zero.
Proof.
  unfold parseRssTimes. simpl.
  destruct (time_Parse RFC822 ts) as [t1 [e1|]]; [|congruence].
  destruct (time_Parse RFC822Z ts) as [t2 [e2|]]; [|congruence].
  destruct (time_Parse RFC1123 ts) as [t3 [e3|]]; [|congruence].
  destruct (time_Parse RFC1123Z ts) as [t4 [e4|]] eqn:E4; [|congruence].
  intro H. injection H as <- _. eapply time_Parse_error_zero, E4.
Qed.

(** C6: when the decoder reads a document without error, [tryParse] returns
    without error one entry for each item the document holds, in order, and
    logs one line for each item whose date does not parse; such an item's
    entry is there as the others are, with the zero time as [When]. *)
Theorem tryParse_keeps_items_without_date r feed :
  Decode r newFeed = (feed, None) ->
  exists entries logged,
    tryParse time_Parse r = Returns (entries, None) logged
    /\ (forall a, atom feed = Some a ->
          entries = map (atomEntry time_Parse a) (Atom1.Items a)
          /\ logged = flat_map (atomWarning time_Parse) (Atom1.Items a)
          /\ forall i e,
               In i (Atom1.Items a) ->
               snd (time_Parse RFC3339 (Atom1.Item.When i)) = Some e ->
               In (atomEntry time_Parse a i) entries
               /\ When (atomEntry time_Parse a i) = time.zero
               /\ In (TimeParseError (Atom1.Item.Title i) "atom" e) logged)
    /\ (forall c, atom feed = None -> rss feed = Some c ->
          let items := Rss2.Channel.Items (Rss2.Channel c) in
          entries = map (rssEntry time_Parse c) items
          /\ logged = flat_map (rssWarning time_Parse) items
          /\ forall i e,
               In i items ->
               snd (parseRssTimes time_Parse (Rss2.Item.When i)) = Some e ->
               In (rssEntry time_Parse c i) entries
               /\ When (rssEntry time_Parse c i) = time.zero
               /\ In (TimeParseError (Rss2.Item.Title i) "rss" e) logged).
Proof.
  intro Hdec. rewrite (tryParse_decoded _ _ _ Hdec).
  destruct (Decode_populates _ _ Hdec) as [(a & Ha & Hc)|(c & Hc & Ha)];
    rewrite Ha, ?Hc; do 2 eexists; (split; [reflexivity|]); split.
  - intros a' Ha'. injection Ha' as <-.
    split; [reflexivity|]. split; [reflexivity|].
    intros i e Hi Herr. split; [apply in_map, Hi|]. split.
    + unfold atomEntry. simpl.
      destruct (time_Parse RFC3339 (Atom1.Item.When i)) as [t err] eqn:E.
      simpl in *. subst err. eapply time_Parse_error_zero, E.
    + apply in_flat_map. exists i. split; [exact Hi|].
      unfold atomWarning. rewrite Herr. left. reflexivity.
  - intros c' _ Hc'. discriminate.
  - intros a' Ha'. discriminate.
  - intros c' _ Hc'. injection Hc' as <-.
    split; [reflexivity|]. split; [reflexivity|].
    intros i e Hi Herr. split; [apply in_map, Hi|]. split.
    + unfold rssEntry. simpl.
      destruct (parseRssTimes time_Parse (Rss2.Item.When i)) as [t err] eqn:E.
      simpl in *. subst err. eapply parseRssTimes_error_zero, E.
    + apply in_flat_map. exists i. split; [exact Hi|].
      unfold rssWarning. rewrite Herr. left. reflexivity.
Qed.

End DateFailures.

(** The theorem on the Atom sample, whose second entry is dated
    [yesterday]. *)
Lemma tryParse_keeps_items_without_date_witness :
  exists entries logged,
    tryParse (GoTime.Parse GoTime.UTC) atomSample
    = Returns (entries, None) logged
    /\ (forall a, atom (fst (Decode atomSample newFeed)) = Some a ->
          entries = map (atomEntry (GoTime.Parse GoTime.UTC) a) (Atom1.Items a)
          /\ logged
             = flat_map (atomWarning (GoTime.Parse GoTime.UTC)) (Atom1.Items a)
          /\ forall i e,
               In i (Atom1.Items a) ->
               snd (GoTime.Parse GoTime.UTC RFC3339 (Atom1.Item.When i))
               = Some e ->
               In (atomEntry (GoTime.Parse GoTime.UTC) a i) entries
               /\ When (atomEntry (GoTime.Parse GoTime.UTC) a i) = time.zero
               /\ In (TimeParseError (Atom1.Item.Title i) "atom" e) logged)
    /\ (forall c, atom (fst (Decode atomSample newFeed)) = None ->
          rss (fst (Decode atomSample newFeed)) = Some c ->
          let items := Rss2.Channel.Items (Rss2.Channel c) in
          entries = map (rssEntry (GoTime.Parse GoTime.UTC) c) items
          /\ logged = flat_map (rssWarning (GoTime.Parse GoTime.UTC)) items
          /\ forall i e,
               In i items ->
               snd (parseRssTimes (GoTime.Parse GoTime.UTC) (Rss2.Item.When i))
               = Some e ->
               In (rssEntry (GoTime.Parse GoTime.UTC) c i) entries
               /\ When (rssEntry (GoTime.Parse GoTime.UTC) c i) = time.zero
               /\ In (TimeParseError (Rss2.Item.Title i) "rss" e) logged).
Proof.
  exact (tryParse_keeps_items_without_date
           (GoTime.Parse GoTime.UTC) (GoTime_Parse_error_zero GoTime.UTC)
           atomSample (fst (Decode atomSample newFeed)) eq_refl).
Defined.

(** The two samples, normalized on a machine whose local time zone is UTC. *)
Example tryParse_atomSample :
  tryParse (GoTime.Parse GoTime.UTC) atomSample
  = Returns
      ([mkEntry "Feed A" "http://a/" "A" "http://a/1"
                (time.mkTime 63745142400 0 time.UTC);
        mkEntry "Feed A" "http://a/" "B" "http://a/2" time.zero],
       None)
      [TimeParseError "B" "atom" "parsing time: cannot parse yesterday"].
Proof. vm_compute. reflexivity. Qed.

Example tryParse_rssSample :
  tryParse (GoTime.Parse GoTime.UTC) rssSample
  = Returns
      ([mkEntry "Feed R" "http://r/" "R1" "http://r/1"
                (time.mkTime 63271836245 0 (time.Zone (-25200)));
        mkEntry "Feed R" "http://r/" "R2" "http://r/2" time.zero],
       None)
      [TimeParseError "R2" "rss" "parsing time: cannot parse soon"].
Proof. vm_compute. reflexivity. Qed.

(** ** Date formats of RSS 2.0 *)

Lemma parseRssTimes_find time_Parse ts :
  parseRssTimes time_Parse ts
  = match find (parses time_Parse ts) [RFC822; RFC822Z; RFC1123; RFC1123Z] with
    | Some f => time_Parse f ts
    | None => time_Parse RFC1123Z ts
    end.
Proof.
  unfold parseRssTimes, parses. cbn [parseRssTimes_range find].
  destruct (time_Parse RFC822 ts) as [t1 [e1|]] eqn:E1; cbn [snd];
    [|symmetry; exact E1].
  destruct (time_Parse RFC822Z ts) as [t2 [e2|]] eqn:E2; cbn [snd];
    [|symmetry; exact E2].
  destruct (time_Parse RFC1123 ts) as [t3 [e3|]] eqn:E3; cbn [snd];
    [|symmetry; exact E3].
  destruct (time_Parse RFC1123Z ts) as [t4 [e4|]] eqn:E4; cbn [snd];
    [reflexivity | symmetry; exact E4].
Qed.

(** C5: [parseRssTimes] returns what [time.Parse] returns for the first of
    RFC822, RFC822Z, RFC1123, RFC1123Z, in this order, with which the string
    parses (and the result of the last attempt when it parses with none).
    The string [Mon, 02 Jan 2006 15:04:05 -0700] does not parse with the
    first three and parses with RFC1123Z, which gives the result:
    January 2, 2006, 22:04:05 UTC, in a zone seven hours west of UTC. *)
Theorem parseRssTimes_first_layout_that_parses :
  (forall time_Parse ts,
      parseRssTimes time_Parse ts
      = match find (parses time_Parse ts)
                   [RFC822; RFC822Z; RFC1123; RFC1123Z] with
        | Some f => time_Parse f ts
        | None => time_Parse RFC1123Z ts
        end)
  /\ (forall local,
         let ts := "Mon, 02 Jan 2006 15:04:05 -0700" in
         parses (GoTime.Parse local) ts RFC822 = false
         /\ parses (GoTime.Parse local) ts RFC822Z = false
         /\ parses (GoTime.Parse local) ts RFC1123 = false
         /\ GoTime.Parse local RFC1123Z ts
            = (time.mkTime 63271836245 0 (time.Zone (-25200)), None)
         /\ parseRssTimes (GoTime.Parse local) ts
            = (time.mkTime 63271836245 0 (time.Zone (-25200)), None)).
Proof.
  split; [exact parseRssTimes_find|].
  intros local ts.
  assert (H4 : GoTime.Parse local RFC1123Z ts
               = (time.mkTime 63271836245 0 (time.Zone (-25200)), None))
    by (vm_compute; reflexivity).
  assert (H1 : parses (GoTime.Parse local) ts RFC822 = false)
    by (vm_compute; reflexivity).
  assert (H2 : parses (GoTime.Parse local) ts RFC822Z = false)
    by (vm_compute; reflexivity).
  assert (H3 : parses (GoTime.Parse local) ts RFC1123 = false)
    by (vm_compute; reflexivity).
  split; [exact H1|]. split; [exact H2|]. split; [exact H3|].
  split; [exact H4|].
  rewrite parseRssTimes_find. cbn [find]. rewrite H1, H2, H3.
  unfold parses. rewrite H4. exact H4.
Qed.

(** ** Fan-out poller *)

Lemma spawn_launched urls :
  spawn urls = (List.length (launched urls), launched urls).
Proof.
  unfold spawn.
  enough (H : forall n started,
             fold_left
               (fun (acc : nat * list string) u =>
                  let (n, started) := acc in
                  if (String.length u =? 0)%nat then (n, started)
                  else (S n, started ++ [u]))
               urls (n, started)
             = ((n + List.length (launched urls))%nat,
                started ++ launched urls))
    by (apply (H 0%nat [])).
  induction urls as [|u urls IH]; intros n started; simpl.
  - rewrite Nat.add_0_r, app_nil_r. reflexivity.
  - destruct (String.length u =? 0)%nat; simpl; rewrite IH.
    + reflexivity.
    + rewrite <- app_assoc, Nat.add_succ_r. reflexivity.
Qed.

Lemma join_all arrivals feeds errs :
  join (List.length arrivals) arrivals feeds errs
  = Some (feeds ++ batchOf arrivals, errs ++ errorsOf arrivals).
Proof.
  revert feeds errs.
  induction arrivals as [|m rest IH]; intros feeds errs; simpl.
  - rewrite !app_nil_r. reflexivity.
  - destruct m as [f|e]; rewrite IH; simpl; rewrite <- ?app_assoc; reflexivity.
Qed.

Lemma sent_app t1 t2 : sent (t1 ++ t2) = sent t1 ++ sent t2.
Proof.
  induction t1 as [|[l|feeds] t1 IH]; simpl; [reflexivity | exact IH |].
  rewrite IH. reflexivity.
Qed.

Lemma sent_logged {A : Type} (line : A -> LogLine) (l : list A) :
  sent (map (fun a => Logged (line a)) l) = [].
Proof. induction l as [|a l IH]; [reflexivity | exact IH]. Qed.

Section PollerProperties.

Variable time_Parse : string -> string -> time.Time * option error.
Variable url_Parse : string -> string + error.
Variable http_Get : string -> xml.Document + error.

(** A [getFeed] goroutine sends exactly one message. *)
Lemma getFeed_returns s :
  exists m logged,
    getFeed time_Parse url_Parse http_Get s = Returns m logged.
Proof.
  unfold getFeed.
  destruct (url_Parse s) as [url|err]; [|eauto].
  destruct (http_Get url) as [body|err]; [|eauto].
  destruct (tryParse_returns time_Parse body) as (entries & logged & ->).
  destruct (tokenError body); eauto.
Qed.

Lemma all_report (started : list string) :
  exists msgs,
    Forall2 (sends time_Parse url_Parse http_Get) started msgs.
Proof.
  induction started as [|u started [msgs IH]].
  - exists []. constructor.
  - destruct (getFeed_returns u) as (m & logged & Hm).
    exists (m :: msgs). constructor; [exists logged; exact Hm | exact IH].
Qed.

(** What a poll cycle does: the messages of the goroutines started, received
    in some order, make one batch, sent once. *)
Lemma pollCycle_trace urls trace :
  pollCycle time_Parse url_Parse http_Get urls trace ->
  exists msgs arrivals,
    Forall2 (sends time_Parse url_Parse http_Get) (launched urls) msgs
    /\ Permutation msgs arrivals
    /\ sent trace = [batchOf arrivals].
Proof.
  intros (arrivals & (msgs & Hall & Hperm) & Hfetch).
  rewrite spawn_launched in Hall. simpl in Hall.
  exists msgs, arrivals. split; [exact Hall|]. split; [exact Hperm|].
  unfold fetch in Hfetch. rewrite spawn_launched in Hfetch.
  rewrite (Forall2_length Hall), (Permutation_length Hperm), join_all
    in Hfetch.
  injection Hfetch as <-. simpl.
  rewrite sent_app, sent_logged. reflexivity.
Qed.

Lemma pollCycle_exists urls :
  exists trace, pollCycle time_Parse url_Parse http_Get urls trace.
Proof.
  destruct (all_report (launched urls)) as [msgs Hall].
  assert (Hrun : exists trace, fetch urls msgs = Some trace).
  { unfold fetch. rewrite spawn_launched.
    rewrite (Forall2_length Hall), join_all. eauto. }
  destruct Hrun as [trace Hrun].
  exists trace, msgs. split; [|exact Hrun].
  exists msgs. rewrite spawn_launched. split; [exact Hall | reflexivity].
Qed.

Lemma batchOf_all_succeed (items : string -> list Entry) started msgs :
  (forall u, In u started ->
             sends time_Parse url_Parse http_Get u (OnFC (items u))) ->
  Forall2 (sends time_Parse url_Parse http_Get) started msgs ->
  batchOf msgs = flat_map items started.
Proof.
  intros Hok Hall. induction Hall as [|u m started msgs [lg Hm] Hrest IH].
  - reflexivity.
  - destruct (Hok u (or_introl eq_refl)) as [lg' Hu].
    rewrite Hu in Hm. injection Hm as <- _. simpl.
    rewrite IH; [reflexivity|]. intros v Hv. apply Hok. right. exact Hv.
Qed.

Lemma length_flat_map_sum {A B : Type} (f : A -> list B) l :
  List.length (flat_map f l) = list_sum (map (fun a => List.length (f a)) l).
Proof.
  induction l as [|a l IH]; simpl; [reflexivity|].
  rewrite length_app, IH. reflexivity.
Qed.

(** C2: for a URL list that is not empty and whose fetches all succeed,
    [items u] being the entries of the feed at [u], every poll cycle sends one
    batch on [db], of as many entries as the feeds fetched have together,
    and holding these entries, each as often as the feeds do (a feed is
    fetched for each URL of the list that is not the empty string).  And for
    any URL list, whatever fails, a poll cycle runs to its end and sends
    exactly one batch. *)
Theorem fetch_delivers_one_batch urls (items : string -> list Entry) :
  urls <> [] ->
  (forall u, In u (launched urls) ->
             sends time_Parse url_Parse http_Get u (OnFC (items u))) ->
  (exists trace, pollCycle time_Parse url_Parse http_Get urls trace)
  /\ (forall trace, pollCycle time_Parse url_Parse http_Get urls trace ->
        exists batch,
          sent trace = [batch]
          /\ List.length batch
             = list_sum (map (fun u => List.length (items u)) (launched urls))
          /\ Permutation batch (flat_map items (launched urls)))
  /\ (forall urls',
        (exists trace, pollCycle time_Parse url_Parse http_Get urls' trace)
        /\ (forall trace, pollCycle time_Parse url_Parse http_Get urls' trace ->
              exists batch, sent trace = [batch])).
Proof.
  intros _ Hok. split; [apply pollCycle_exists|]. split.
  - intros trace Hrun.
    destruct (pollCycle_trace _ _ Hrun)
      as (msgs & arrivals & Hall & Hperm & Hs).
    assert (Hbatch : Permutation (batchOf arrivals)
                                 (flat_map items (launched urls))).
    { rewrite <- (batchOf_all_succeed items _ _ Hok Hall).
      symmetry. apply Permutation_flat_map, Hperm. }
    exists (batchOf arrivals). split; [exact Hs|]. split; [|exact Hbatch].
    rewrite (Permutation_length Hbatch). apply length_flat_map_sum.
  - intro urls'. split; [apply pollCycle_exists|].
    intros trace Hrun.
    destruct (pollCycle_trace _ _ Hrun) as (msgs & arrivals & _ & _ & Hs).
    eauto.
Qed.

End PollerProperties.

(** The theorem on this network: the batch of a poll cycle has the two
    entries of each feed. *)
Lemma fetch_delivers_one_batch_witness :
  (exists trace,
      pollCycle (GoTime.Parse GoTime.UTC) netParse netGet netURLs trace)
  /\ (forall trace,
        pollCycle (GoTime.Parse GoTime.UTC) netParse netGet netURLs trace ->
        exists batch,
          sent trace = [batch]
          /\ List.length batch
             = list_sum (map (fun u => List.length (netItems u))
                             (launched netURLs))
          /\ Permutation batch (flat_map netItems (launched netURLs)))
  /\ (forall urls',
        (exists trace,
            pollCycle (GoTime.Parse GoTime.UTC) netParse netGet urls' trace)
        /\ (forall trace,
              pollCycle (GoTime.Parse GoTime.UTC) netParse netGet urls' trace ->
              exists batch, sent trace = [batch])).
Proof.
  apply (fetch_delivers_one_batch
           (GoTime.Parse GoTime.UTC) netParse netGet netURLs netItems).
  - discriminate.
  - intros u [<-|[<-|[]]]; eexists; vm_compute; reflexivity.
Defined.

Example fetch_delivers_one_batch_sample :
  List.length (flat_map netItems (launched netURLs)) = 4%nat.
Proof. vm_compute. reflexivity. Qed.

(** ** The plain codec reads back what it wrote *)
Section PlainCodecRoundTrip.

Import PlainCodec.

Lemma getPos_putPos p rest : getPos (putPos p ++ rest) = Some (p, rest).
Proof.
  induction p as [p IH|p IH|]; simpl; rewrite ?IH; reflexivity.
Qed.

Lemma getZ_putZ z rest : getZ (putZ z ++ rest) = Some (z, rest).
Proof.
  destruct z as [|p|p]; simpl; rewrite ?getPos_putPos; reflexivity.
Qed.

Lemma getString_putString s rest :
  getString (putString s ++ rest) = Some (s, rest).
Proof.
  unfold getString, putString. rewrite <- app_assoc, getZ_putZ.
  set (bs := list_byte_of_string s).
  assert (Hlen : (Z.of_nat (List.length (bs ++ rest))
                  <? Z.of_nat (List.length bs))%Z = false).
  { apply Z.ltb_ge. rewrite length_app. lia. }
  rewrite Hlen, Nat2Z.id, firstn_app, skipn_app, Nat.sub_diag.
  rewrite firstn_all, skipn_all. simpl. rewrite app_nil_r.
  unfold bs. rewrite string_of_list_byte_of_string. reflexivity.
Qed.

Lemma getLocation_putLocation l rest :
  getLocation (putLocation l ++ rest) = Some (l, rest).
Proof.
  destruct l as [|offset]; simpl; rewrite ?getZ_putZ; reflexivity.
Qed.

Lemma getEntry_putEntry e rest :
  getEntry (putEntry e ++ rest) = Some (e, rest).
Proof.
  unfold getEntry, putEntry. rewrite <- !app_assoc.
  rewrite !getString_putString, !getZ_putZ, getLocation_putLocation.
  destruct e as [a b c d [s ns l]]. reflexivity.
Qed.

Lemma getEntries_putEntries feeds rest :
  getEntries (List.length feeds) (putEntries feeds ++ rest)
  = Some (feeds, rest).
Proof.
  induction feeds as [|e feeds IH]; simpl; [reflexivity|].
  rewrite <- app_assoc, getEntry_putEntry, IH. reflexivity.
Qed.

Lemma refusal_None feeds :
  Forall (fun e => time.MarshalBinary_err (When e) = None) feeds ->
  refusal feeds = None.
Proof.
  induction 1 as [|e feeds He _ IH]; simpl; [reflexivity|].
  rewrite He. exact IH.
Qed.

Lemma Unmarshal_Marshal feeds :
  Forall (fun e => time.MarshalBinary_err (When e) = None) feeds ->
  exists bytes,
    Marshal feeds = (bytes, None) /\ Unmarshal bytes = (feeds, None).
Proof.
  intro Hok. unfold Marshal. rewrite (refusal_None feeds Hok).
  eexists. split; [reflexivity|].
  unfold Unmarshal, descriptor. cbn [app].
  assert (Hcons : exists b l,
             putZ (Z.of_nat (List.length feeds)) ++ putEntries feeds
             = b :: l).
  { destruct (Z.of_nat (List.length feeds)); simpl; eauto. }
  destruct Hcons as (b & l & Hcons).
  rewrite Hcons at 1. rewrite getZ_putZ, Nat2Z.id.
  rewrite <- (app_nil_r (putEntries feeds)), getEntries_putEntries.
  reflexivity.
Qed.

End PlainCodecRoundTrip.

(** ** Cache actor and durable store *)

(** Reading installs nothing. *)
Lemma current_reads feedz trace :
  Forall (fun ev => exists w, ev = Shown w) trace ->
  current feedz trace = feedz.
Proof.
  induction 1 as [|ev trace [w ->] _ IH]; [reflexivity | exact IH].
Qed.

Section StoreProperties.

Variable gob_Encode : list Entry -> list Byte.byte * option error.
Variable gob_Decode : list Byte.byte -> list Entry * option error.

(** One turn of the loop of [feedCache]: either the value of [feedz] is
    shown, and nothing changes, or a new value is installed and saved. *)
Lemma feedCache_select_cases c feedz disk :
  match c with
  | ToShow =>
      feedCache_select gob_Encode c feedz disk
      = (Shown feedz, Continues (feedz, disk))
  | ToSave new io =>
      feedCache_select gob_Encode c feedz disk
      = (Installed new,
         match saveFeeds gob_Encode io new disk with
         | Continues disk' => Continues (new, disk')
         | Exits status stderr => Exits status stderr
         end)
  end.
Proof.
  destruct c as [|new io]; simpl; [reflexivity|].
  destruct (saveFeeds gob_Encode io new disk); reflexivity.
Qed.

Lemma feedCache_loop_cons c ready feedz disk :
  feedCache_loop gob_Encode (c :: ready) feedz disk
  = match feedCache_select gob_Encode c feedz disk with
    | (ev, Exits status stderr) => ([ev], Exits status stderr)
    | (ev, Continues (feedz', disk')) =>
        (ev :: fst (feedCache_loop gob_Encode ready feedz' disk'),
         snd (feedCache_loop gob_Encode ready feedz' disk'))
    end.
Proof.
  simpl. destruct (feedCache_select gob_Encode c feedz disk) as [ev [[f d]|]];
    [|reflexivity].
  destruct (feedCache_loop gob_Encode ready f d). reflexivity.
Qed.

(** Every value shown is the snapshot installed last, as a whole. *)
Lemma feedCache_loop_shows_current ready feedz disk pre v post :
  fst (feedCache_loop gob_Encode ready feedz disk) = pre ++ Shown v :: post ->
  v = current feedz pre.
Proof.
  revert feedz disk pre.
  induction ready as [|c ready IH]; intros feedz disk pre.
  - simpl. destruct pre; discriminate.
  - rewrite feedCache_loop_cons.
    pose proof (feedCache_select_cases c feedz disk) as Hc.
    destruct c as [|new io]; rewrite Hc; clear Hc.
    + simpl. destruct pre as [|ev pre]; simpl; intro H.
      * injection H as H _. symmetry. exact H.
      * injection H as <- H. apply IH in H. exact H.
    + destruct (saveFeeds gob_Encode io new disk) as [disk'|]; simpl.
      * destruct pre as [|ev pre]; simpl; intro H; [discriminate|].
        injection H as <- H. apply IH in H. exact H.
      * destruct pre as [|ev [|ev' pre]]; discriminate.
Qed.

(** One event for each turn of the loop, of the kind of the communication
    that proceeded; all turns are taken unless [saveFeeds] ends the process. *)
Lemma saveFeeds_Continues io feeds disk disk' :
  saveFeeds gob_Encode io feeds disk = Continues disk' ->
  disk' = Some (fst (Encode gob_Encode io feeds [])).
Proof.
  unfold saveFeeds. destruct (maybeDie (createErr io)); [|discriminate].
  destruct (Encode gob_Encode io feeds []) as [f err]. intro H.
  injection H as <-. reflexivity.
Qed.

Lemma feedCache_loop_answers ready feedz disk :
  let (trace, final) := feedCache_loop gob_Encode ready feedz disk in
  Forall2 answers (firstn (List.length trace) ready) trace
  /\ match final with
     | Continues (feedz', disk') =>
         List.length trace = List.length ready
         /\ feedz' = current feedz trace
         /\ disk' = written gob_Encode disk ready
     | Exits _ _ => exists pre new io, firstn (List.length trace) ready
                                        = pre ++ [ToSave new io]
     end.
Proof.
  revert feedz disk.
  induction ready as [|c ready IH]; intros feedz disk.
  - simpl. split; [constructor | repeat split].
  - rewrite feedCache_loop_cons.
    pose proof (feedCache_select_cases c feedz disk) as Hc.
    destruct c as [|new io]; rewrite Hc; clear Hc.
    + specialize (IH feedz disk).
      destruct (feedCache_loop gob_Encode ready feedz disk) as [trace final].
      destruct IH as [Hall Hfinal]. simpl. split.
      * constructor; [exact I | exact Hall].
      * destruct final as [[f d]|].
        -- destruct Hfinal as (-> & -> & ->). repeat split.
        -- destruct Hfinal as (pre & new & io & ->).
           exists (ToShow :: pre), new, io. reflexivity.
    + destruct (saveFeeds gob_Encode io new disk) as [disk'|] eqn:Hsave.
      * apply saveFeeds_Continues in Hsave. subst disk'.
        specialize (IH new (Some (fst (Encode gob_Encode io new [])))).
        destruct (feedCache_loop gob_Encode ready new
                    (Some (fst (Encode gob_Encode io new []))))
          as [trace final].
        destruct IH as [Hall Hfinal]. simpl. split.
        -- constructor; [reflexivity | exact Hall].
        -- destruct final as [[f d]|].
           ++ destruct Hfinal as (-> & -> & ->). repeat split.
           ++ destruct Hfinal as (pre & new' & io' & ->).
              exists (ToSave new io :: pre), new', io'. reflexivity.
      * simpl. split.
        -- constructor; [reflexivity | constructor].
        -- exists [], new, io. reflexivity.
Qed.

(** C3: the loop of [feedCache] takes the communications one at a time.
    Each turn does one thing: it shows the value of [feedz] to one reader, or
    it installs the value received and saves it; the events of a run are, one
    for one, the answers to the communications.  So every value shown to a
    reader is, as a whole, the snapshot installed last before that turn (the
    empty one before the first install): the one in place before the next
    install, or the one that install puts in place, never a part of each.
    The loop ends only when [saveFeeds] ends the process; as long as it does
    not, the cache file is what the last install wrote. *)
Theorem feedCache_one_event_at_a_time :
  forall ready disk,
    let (trace, final) := feedCache gob_Encode ready disk in
    Forall2 answers (firstn (List.length trace) ready) trace
    /\ (forall pre v post,
           trace = pre ++ Shown v :: post -> v = current [] pre)
    /\ (forall pre new between v after,
           trace = pre ++ Installed new :: between ++ Shown v :: after ->
           v = current new between
           /\ (Forall (fun ev => exists w, ev = Shown w) between -> v = new))
    /\ match final with
       | Continues (feedz, disk') =>
           List.length trace = List.length ready
           /\ feedz = current [] trace
           /\ disk' = written gob_Encode disk ready
       | Exits _ _ =>
           exists pre new io,
             firstn (List.length trace) ready = pre ++ [ToSave new io]
       end.
Proof.
  intros ready disk. unfold feedCache.
  pose proof (feedCache_loop_answers ready [] disk) as Hans.
  pose proof (feedCache_loop_shows_current ready [] disk) as Hshow.
  destruct (feedCache_loop gob_Encode ready [] disk) as [trace final].
  simpl in Hshow. destruct Hans as [Hall Hfinal].
  split; [exact Hall|]. split; [exact Hshow|]. split; [|exact Hfinal].
  intros pre new between v after ->.
  specialize (Hshow (pre ++ Installed new :: between) v after).
  rewrite <- app_assoc in Hshow. specialize (Hshow eq_refl).
  assert (Hv : v = current new between).
  { rewrite Hshow. unfold current. rewrite fold_left_app. reflexivity. }
  split; [exact Hv|].
  intro Hreads. rewrite Hv. apply current_reads, Hreads.
Qed.

(** C10: as long as no snapshot was installed, each reader that comes is
    answered in its turn of the loop with the empty ([nil]) list; the answer
    takes no batch from the poller and no reading of the cache file, and
    leaves the loop as it started. *)
Theorem feedCache_shows_nil_before_first_install :
  forall n rest disk,
    feedCache gob_Encode (repeat ToShow n ++ rest) disk
    = (repeat (Shown []) n ++ fst (feedCache gob_Encode rest disk),
       snd (feedCache gob_Encode rest disk)).
Proof.
  intros n rest disk. unfold feedCache.
  induction n as [|n IH].
  - simpl. destruct (feedCache_loop gob_Encode rest [] disk). reflexivity.
  - change (repeat ToShow (S n) ++ rest)
      with (ToShow :: (repeat ToShow n ++ rest)).
    rewrite feedCache_loop_cons. cbn [feedCache_select].
    rewrite IH. reflexivity.
Qed.

End StoreProperties.

(** A reader served before the first install has nothing to list, whatever
    the cutoff of its route: the page says so. *)
Example listFeeds_nothing_yet :
  forall since,
    fst (feedCache PlainCodec.Marshal [ToShow] None) = [Shown []]
    /\ listFeeds (@insertionSort) since [] = [].
Proof. intro since. split; reflexivity. Qed.

Section RoundTrip.

Variable gob_Encode : list Entry -> list Byte.byte * option error.
Variable gob_Decode : list Byte.byte -> list Entry * option error.

(** What the store asks of [encoding/gob]: [Encode] takes a value all of
    whose times let themselves be encoded, and [Decode] reads back the value
    whose encoding [Encode] wrote. *)
Hypothesis gob_round_trip :
  forall feeds,
    encodable feeds ->
    exists bytes,
      gob_Encode feeds = (bytes, None) /\ gob_Decode bytes = (feeds, None).

(** C7, as amended: when the operating system reports no error, a snapshot
    all of whose times [encoding/gob] encodes, saved by [saveFeeds], and so
    any such snapshot installed by the cache actor, is the one the next
    start of [fetchFeeds] loads from the cache file and sends on [db],
    whatever the file held before; the empty snapshot as any other. *)
Theorem saveFeeds_then_load_round_trip :
  forall feeds disk,
    encodable feeds ->
    exists disk',
      saveFeeds gob_Encode noFault feeds disk = Continues disk'
      /\ (forall urls first,
             fetchFeeds gob_Decode disk' urls first []
             = Continues (Some [SentDB feeds]))
      /\ snd (feedCache gob_Encode [ToSave feeds noFault] disk)
         = Continues (feeds, disk').
Proof.
  intros feeds disk Hok.
  destruct (gob_round_trip feeds Hok) as (bytes & Henc & Hdec).
  exists (Some bytes).
  assert (Hsave : saveFeeds gob_Encode noFault feeds disk
                  = Continues (Some bytes)).
  { unfold saveFeeds, Encode. simpl. rewrite Henc. reflexivity. }
  split; [exact Hsave|]. split.
  - intros urls first. unfold fetchFeeds. rewrite Hdec. reflexivity.
  - unfold feedCache. cbn [feedCache_loop feedCache_select].
    rewrite Hsave. reflexivity.
Qed.

End RoundTrip.

(** The theorem with the plain codec, on a snapshot of two entries and an
    empty disk. *)
Lemma saveFeeds_then_load_round_trip_witness :
  exists disk',
    saveFeeds PlainCodec.Marshal noFault [entryAt "a" T1; undated] None
    = Continues disk'
    /\ (forall urls first,
           fetchFeeds PlainCodec.Unmarshal disk' urls first []
           = Continues (Some [SentDB [entryAt "a" T1; undated]]))
    /\ snd (feedCache PlainCodec.Marshal
              [ToSave [entryAt "a" T1; undated] noFault] None)
       = Continues ([entryAt "a" T1; undated], disk').
Proof.
  apply (saveFeeds_then_load_round_trip
           PlainCodec.Marshal PlainCodec.Unmarshal
           Unmarshal_Marshal [entryAt "a" T1; undated] None).
  repeat constructor.
Defined.

(** C7, as stated, fails: the feed dates its entry in a zone one minute west
    of UTC, which [time.Parse] reads and the encoding of a [Time] refuses.
    With no error of the operating system [Encode] gives up on the snapshot,
    [saveFeeds] returns, the cache file holds no value, and the next start
    ends on the error of the decoder instead of sending the snapshot. *)
Lemma saveFeeds_loses_snapshot_dated_minute_west :
  tryParse (GoTime.Parse GoTime.UTC) westSample = Returns ([west], None) []
  /\ Encode PlainCodec.Marshal noFault [west] []
     = (PlainCodec.descriptor,
        Some "Time.MarshalBinary: unexpected zone offset")
  /\ saveFeeds PlainCodec.Marshal noFault [west] None
     = Continues (Some PlainCodec.descriptor)
  /\ (exists e,
        fetchFeeds PlainCodec.Unmarshal (Some PlainCodec.descriptor)
          netURLs [] []
        = Exits 1 (e ++ String "010" "")).
Proof.
  split; [vm_compute; reflexivity|]. split; [reflexivity|].
  split; [reflexivity|]. eexists. reflexivity.
Qed.

Example saveFeeds_then_load_sample :
  let feeds := [entryAt "a" T1; undated] in
  match saveFeeds PlainCodec.Marshal noFault feeds (Some []) with
  | Continues disk' => fetchFeeds PlainCodec.Unmarshal disk' netURLs [] []
  | Exits status stderr => Exits status stderr
  end = Continues (Some [SentDB feeds]).
Proof. vm_compute. reflexivity. Qed.

(** ** Failures of the store *)

(** C8 does not hold of [saveFeeds]: an error of [os.Create] ends the
    process, but an error of [enc.Encode] is dropped; the process goes on, and
    the cache file keeps what was written before the error. *)
Theorem saveFeeds_goes_on_after_failed_write :
  forall gob_Encode feeds disk,
    (forall e w,
        saveFeeds gob_Encode (mkSaveIO (Some e) w) feeds disk
        = Exits 1 (e ++ String "010" ""))
    /\ (forall n e,
           saveFeeds gob_Encode (mkSaveIO None (Some (n, e))) feeds disk
           = Continues (Some (firstn n (fst (gob_Encode feeds)))))
    /\ (forall n e feedz,
           snd (feedCache_select gob_Encode
                  (ToSave feeds (mkSaveIO None (Some (n, e)))) feedz disk)
           = Continues (feeds, Some (firstn n (fst (gob_Encode feeds))))).
Proof.
  intros gob_Encode feeds disk. split; [|split].
  - intros e w. reflexivity.
  - intros n e. unfold saveFeeds, Encode. simpl.
    destruct (gob_Encode feeds). reflexivity.
  - intros n e feedz. unfold feedCache_select, saveFeeds, Encode. simpl.
    destruct (gob_Encode feeds). reflexivity.
Qed.

(** The disk is full: nothing is written, [saveFeeds] returns, the actor goes
    on serving, and the next start finds a cache file it cannot decode. *)
Example saveFeeds_disk_full :
  let io := mkSaveIO None (Some (0%nat, "no space left on device")) in
  saveFeeds PlainCodec.Marshal io [entryAt "a" T1] None = Continues (Some [])
  /\ feedCache PlainCodec.Marshal [ToSave [entryAt "a" T1] io; ToShow] None
     = ([Installed [entryAt "a" T1]; Shown [entryAt "a" T1]],
        Continues ([entryAt "a" T1], Some []))
  /\ fetchFeeds PlainCodec.Unmarshal (Some []) netURLs [] []
     = Exits 1 ("EOF" ++ String "010" "").
Proof. repeat split. Qed.

(** * Further properties *)

(** ** Listings *)

Lemma After_both_false t u :
  time.After t u = false -> time.After u t = false -> instant t = instant u.
Proof.
  rewrite !After_false. intros H1 H2.
  destruct t as [ts tn tl], u as [us un ul]. unfold instant. simpl in *.
  assert (ts = us) by lia. assert (tn = un) by lia. subst. reflexivity.
Qed.

Lemma After_instant t t' u u' :
  instant t = instant t' -> instant u = instant u' ->
  time.After t u = time.After t' u'.
Proof.
  unfold instant, time.After. intros Ht Hu.
  injection Ht as -> ->. injection Hu as -> ->. reflexivity.
Qed.

(** A list of times in descending order is the only one of its
    instants. *)
Lemma descending_unique (l l' : list time.Time) :
  StronglySorted (fun a b => time.After b a = false) l ->
  StronglySorted (fun a b => time.After b a = false) l' ->
  Permutation (map instant l) (map instant l') ->
  map instant l = map instant l'.
Proof.
  intros Hl. revert l'. induction Hl as [|a l Hl IH Ha]; intros l' Hl' Hperm.
  - apply Permutation_nil in Hperm. symmetry. exact Hperm.
  - destruct Hl' as [|a' l' Hl' Ha'].
    + symmetry in Hperm. apply Permutation_nil in Hperm. discriminate.
    + simpl in *.
      assert (Heq : instant a = instant a').
      { rewrite Forall_forall in Ha, Ha'.
        assert (Hin : In (instant a) (instant a' :: map instant l'))
          by (apply (Permutation_in _ Hperm); left; reflexivity).
        assert (Hin' : In (instant a') (instant a :: map instant l)).
        { apply (Permutation_in _ (Permutation_sym Hperm)). left. reflexivity. }
        destruct Hin as [Hin|Hin]; [symmetry; exact Hin|].
        destruct Hin' as [Hin'|Hin']; [exact Hin'|].
        apply in_map_iff in Hin as (b & Hb & Hin).
        apply in_map_iff in Hin' as (b' & Hb' & Hin').
        apply After_both_false.
        - rewrite <- (After_instant b a a' a' Hb eq_refl). apply Ha', Hin.
        - rewrite <- (After_instant b' a' a a Hb' eq_refl). apply Ha, Hin'. }
      rewrite Heq in *. f_equal. apply IH; [exact Hl'|].
      apply Permutation_cons_inv in Hperm. exact Hperm.
Qed.

Lemma StronglySorted_map_When l :
  StronglySorted (fun a b => time.After (When b) (When a) = false) l ->
  StronglySorted (fun a b => time.After b a = false) (map When l).
Proof.
  induction 1 as [|a l Hl IH Ha]; simpl; constructor; [exact IH|].
  rewrite Forall_forall in *. intros t Ht.
  apply in_map_iff in Ht as (e & <- & He). apply Ha, He.
Qed.

Lemma filter_filter_implied {A : Type} (p q : A -> bool) l :
  (forall a, q a = true -> p a = true) ->
  filter q (filter p l) = filter q l.
Proof.
  intro Himp. induction l as [|a l IH]; simpl; [reflexivity|].
  destruct (p a) eqn:Hp; simpl.
  - rewrite IH. reflexivity.
  - destruct (q a) eqn:Hq; [|exact IH].
    apply Himp in Hq. congruence.
Qed.

Lemma Permutation_filter {A : Type} (p : A -> bool) l l' :
  Permutation l l' -> Permutation (filter p l) (filter p l').
Proof.
  induction 1 as [|a l l' _ IH|a b l|l l' l'' _ IH1 _ IH2]; simpl.
  - constructor.
  - destruct (p a); [constructor|]; exact IH.
  - destruct (p a), (p b); try reflexivity. apply perm_swap.
  - etransitivity; eassumption.
Qed.

Section ListingProperties.

Variable sort_Slice : forall A : Type, list A -> (A -> A -> bool) -> list A.

Hypothesis sort_Slice_Permutation :
  forall A (x : list A) less, Permutation (sort_Slice A x less) x.

Hypothesis sort_Slice_IsSorted :
  forall A (x : list A) less,
    LessOrdering less -> IsSorted less (sort_Slice A x less).

(** X1: the listing does not depend on the order of the snapshot, which is
    the order in which the feeds happened to answer: two snapshots with the
    same entries give listings with the same entries and the same sequence
    of dates; only entries of one and the same instant may change places. *)
Theorem filterEntries_order_of_snapshot feeds feeds' begin :
  Permutation feeds feeds' ->
  Permutation (filterEntries sort_Slice feeds begin)
              (filterEntries sort_Slice feeds' begin)
  /\ map (fun e => instant (When e)) (filterEntries sort_Slice feeds begin)
     = map (fun e => instant (When e))
         (filterEntries sort_Slice feeds' begin).
Proof.
  intro Hperm.
  assert (Hout : Permutation (filterEntries sort_Slice feeds begin)
                             (filterEntries sort_Slice feeds' begin)).
  { rewrite !(filterEntries_Permutation sort_Slice sort_Slice_Permutation).
    apply Permutation_filter, Hperm. }
  split; [exact Hout|].
  rewrite <- !(map_map When instant).
  apply descending_unique.
  - apply StronglySorted_map_When, filterEntries_descending; assumption.
  - apply StronglySorted_map_When, filterEntries_descending; assumption.
  - apply Permutation_map, Permutation_map, Hout.
Qed.

(** X2: a later cutoff selects among what an earlier one selects: the
    listing for [later], a cutoff that [begin] is not after, is the listing
    for [begin] filtered again with [later] (up to the order of entries of
    one instant), so each of its entries is in the listing for [begin], which
    is no shorter. *)
Theorem filterEntries_later_cutoff feeds begin later :
  time.After begin later = false ->
  Permutation (filterEntries sort_Slice feeds later)
              (filterEntries sort_Slice
                 (filterEntries sort_Slice feeds begin) later)
  /\ incl (filterEntries sort_Slice feeds later)
          (filterEntries sort_Slice feeds begin)
  /\ (List.length (filterEntries sort_Slice feeds later)
      <= List.length (filterEntries sort_Slice feeds begin))%nat.
Proof.
  intro Hle.
  assert (Himp : forall e, time.After (When e) later = true ->
                           time.After (When e) begin = true).
  { intros e He. destruct (time.After (When e) begin) eqn:Hb; [reflexivity|].
    rewrite (After_neg_trans _ _ _ Hb Hle) in He. discriminate. }
  pose proof (filterEntries_Permutation sort_Slice sort_Slice_Permutation)
    as Hfilter.
  assert (Hagain : Permutation
                     (filterEntries sort_Slice feeds later)
                     (filterEntries sort_Slice
                        (filterEntries sort_Slice feeds begin) later)).
  { rewrite (Hfilter (filterEntries sort_Slice feeds begin) later).
    rewrite (Permutation_filter _ _ _ (Hfilter feeds begin)).
    rewrite (filter_filter_implied
               (fun i => time.After (When i) begin)
               (fun i => time.After (When i) later) feeds Himp).
    apply Hfilter. }
  split; [exact Hagain|].
  assert (Hincl : incl (filterEntries sort_Slice feeds later)
                       (filterEntries sort_Slice feeds begin)).
  { intros e He.
    apply (filterEntries_In sort_Slice sort_Slice_Permutation) in He
      as [Hin Hafter].
    apply (filterEntries_In sort_Slice sort_Slice_Permutation).
    split; [exact Hin | apply Himp, Hafter]. }
  split; [exact Hincl|].
  rewrite (Permutation_length (Hfilter feeds later)).
  rewrite (Permutation_length (Hfilter feeds begin)).
  clear - Himp. induction feeds as [|e feeds IH]; simpl; [lia|].
  destruct (time.After (When e) later) eqn:Hl.
  - rewrite (Himp e Hl). simpl. lia.
  - destruct (time.After (When e) begin); simpl; lia.
Qed.

End ListingProperties.

Lemma filterEntries_order_of_snapshot_witness :
  let feeds := [entryAt "a" T1; undated; entryAt "b" T2] in
  let feeds' := [entryAt "b" T2; entryAt "a" T1; undated] in
  Permutation (filterEntries (@insertionSort) feeds T3)
              (filterEntries (@insertionSort) feeds' T3)
  /\ map (fun e => instant (When e)) (filterEntries (@insertionSort) feeds T3)
     = map (fun e => instant (When e))
         (filterEntries (@insertionSort) feeds' T3).
Proof.
  apply (filterEntries_order_of_snapshot
           (@insertionSort)
           (fun A x less => insertionSort_Permutation less x)
           (fun A x less H => insertionSort_IsSorted less H x)).
  apply Permutation_sym, (Permutation_cons_app [entryAt "a" T1; undated] []).
  reflexivity.
Defined.

Lemma filterEntries_later_cutoff_witness :
  let feeds := [entryAt "c" T3; undated; entryAt "a" T1; entryAt "b" T2] in
  Permutation (filterEntries (@insertionSort) feeds T2)
              (filterEntries (@insertionSort)
                 (filterEntries (@insertionSort) feeds time.zero) T2)
  /\ incl (filterEntries (@insertionSort) feeds T2)
          (filterEntries (@insertionSort) feeds time.zero)
  /\ (List.length (filterEntries (@insertionSort) feeds T2)
      <= List.length (filterEntries (@insertionSort) feeds time.zero))%nat.
Proof.
  apply (filterEntries_later_cutoff
           (@insertionSort)
           (fun A x less => insertionSort_Permutation less x)).
  reflexivity.
Defined.

(** ** Single-feed fetcher *)

(** When [tryParse] returns an error, it is the decoder's, and nothing else
    comes with it. *)
Lemma tryParse_error_alone time_Parse r entries e logged :
  tryParse time_Parse r = Returns (entries, Some e) logged ->
  tokenError r = Some e /\ entries = [] /\ logged = [].
Proof.
  rewrite <- Decode_error. unfold tryParse.
  destruct (Decode r newFeed) as [feed [e'|]].
  - intro H. injection H as <- <- <-. repeat split.
  - destruct (atom feed) as [a|].
    + destruct (fold_left (atomItem time_Parse a) (Atom1.Items a) ([], [])).
      discriminate.
    + destruct (rss feed) as [c|]; [|discriminate].
      destruct (fold_left (rssItem time_Parse c)
                  (Rss2.Channel.Items (Rss2.Channel c)) ([], [])).
      discriminate.
Qed.

Section FetcherProperties.

Variable time_Parse : string -> string -> time.Time * option error.
Variable url_Parse : string -> string + error.
Variable http_Get : string -> xml.Document + error.

(** X3: an error [getFeed] reports names the URL it was given: it is the
    URL, a colon and the cause, which is the error of [url.Parse], or of
    [http.Get] on the parsed URL, or of the decoder on the body; nothing was
    logged on the way. *)
Theorem getFeed_error_names_URL s e logged :
  getFeed time_Parse url_Parse http_Get s = Returns (OnEC e) logged ->
  logged = []
  /\ exists cause,
       e = (s ++ ": " ++ cause)%string
       /\ (url_Parse s = inr cause
           \/ exists url,
                url_Parse s = inl url
                /\ (http_Get url = inr cause
                    \/ exists body,
                         http_Get url = inl body
                         /\ tokenError body = Some cause)).
Proof.
  unfold getFeed.
  destruct (url_Parse s) as [url|err] eqn:Hurl.
  - destruct (http_Get url) as [body|err] eqn:Hget.
    + destruct (tryParse time_Parse body) as [[entries err] lg|] eqn:Hparse;
        [|discriminate].
      destruct err as [err|]; [|discriminate].
      apply tryParse_error_alone in Hparse as (Htok & _ & ->).
      intro H. injection H as <- <-. split; [reflexivity|].
      exists err. split; [reflexivity|]. right. exists url.
      split; [reflexivity|]. right. exists body. split; assumption.
    + intro H. injection H as <- <-. split; [reflexivity|].
      exists err. split; [reflexivity|].
      right. exists url. split; [reflexivity|]. left. exact Hget.
  - intro H. injection H as <- <-. split; [reflexivity|].
    exists err. split; [reflexivity|]. left. reflexivity.
Qed.

End FetcherProperties.

(** ** Poll cycles with failures *)

Lemma feedCache_loop_app gob_Encode r1 r2 feedz disk :
  feedCache_loop gob_Encode (r1 ++ r2) feedz disk
  = match feedCache_loop gob_Encode r1 feedz disk with
    | (t1, Continues (feedz', disk')) =>
        (t1 ++ fst (feedCache_loop gob_Encode r2 feedz' disk'),
         snd (feedCache_loop gob_Encode r2 feedz' disk'))
    | (t1, Exits status stderr) => (t1, Exits status stderr)
    end.
Proof.
  revert feedz disk. induction r1 as [|c r1 IH]; intros feedz disk.
  - simpl. destruct (feedCache_loop gob_Encode r2 feedz disk). reflexivity.
  - rewrite <- app_comm_cons, !feedCache_loop_cons.
    destruct (feedCache_select gob_Encode c feedz disk) as [ev [[f d]|]];
      [|reflexivity].
    rewrite IH.
    destruct (feedCache_loop gob_Encode r1 f d) as [t1 [[f' d']|]];
      reflexivity.
Qed.

Lemma feedCache_loop_reads gob_Encode n feedz disk :
  feedCache_loop gob_Encode (repeat ToShow n) feedz disk
  = (repeat (Shown feedz) n, Continues (feedz, disk)).
Proof.
  induction n as [|n IH]; [reflexivity|].
  change (repeat ToShow (S n)) with (ToShow :: repeat ToShow n).
  rewrite feedCache_loop_cons. cbn [feedCache_select]. rewrite IH.
  reflexivity.
Qed.

Section CycleProperties.

Variable time_Parse : string -> string -> time.Time * option error.
Variable url_Parse : string -> string + error.
Variable http_Get : string -> xml.Document + error.

Lemma sends_contributes u m :
  sends time_Parse url_Parse http_Get u m ->
  match m with OnFC f => f | OnEC _ => [] end
  = feedEntries time_Parse url_Parse http_Get u
  /\ match m with OnFC _ => [] | OnEC e => [e] end
     = feedErrors time_Parse url_Parse http_Get u.
Proof.
  intros [logged H]. unfold feedEntries, feedErrors. rewrite H.
  destruct m; split; reflexivity.
Qed.

Lemma all_contribute started msgs :
  Forall2 (sends time_Parse url_Parse http_Get) started msgs ->
  batchOf msgs = flat_map (feedEntries time_Parse url_Parse http_Get) started
  /\ errorsOf msgs
     = flat_map (feedErrors time_Parse url_Parse http_Get) started.
Proof.
  induction 1 as [|u m started msgs Hm _ [IHb IHe]]; [split; reflexivity|].
  destruct (sends_contributes u m Hm) as [Hb He].
  unfold batchOf, errorsOf in *. simpl. rewrite Hb, He, IHb, IHe.
  split; reflexivity.
Qed.

Lemma pollCycle_shape urls trace :
  pollCycle time_Parse url_Parse http_Get urls trace ->
  exists arrivals,
    trace = Logged (TimeToFetch (List.length urls))
            :: SentDB (batchOf arrivals)
            :: map (fun e => Logged (Problem e)) (errorsOf arrivals)
            ++ [Logged DoneFetching]
    /\ Permutation (batchOf arrivals)
         (flat_map (feedEntries time_Parse url_Parse http_Get)
                   (launched urls))
    /\ Permutation (errorsOf arrivals)
         (flat_map (feedErrors time_Parse url_Parse http_Get)
                   (launched urls)).
Proof.
  intros (arrivals & (msgs & Hall & Hperm) & Hfetch).
  rewrite spawn_launched in Hall. simpl in Hall.
  unfold fetch in Hfetch. rewrite spawn_launched in Hfetch.
  rewrite (Forall2_length Hall), (Permutation_length Hperm), join_all
    in Hfetch.
  injection Hfetch as <-. exists arrivals. split; [reflexivity|].
  destruct (all_contribute _ _ Hall) as [<- <-].
  split; symmetry; apply Permutation_flat_map, Hperm.
Qed.

(** X4: a poll cycle in which some fetches fail.  The log says first how
    many URLs the list has (the empty ones too), then the one batch is sent:
    the entries of the feeds whose fetch succeeded, all of them, whatever the
    others did; then comes one line for each fetch that failed, with its
    error, and the closing line. *)
Theorem fetch_with_failures urls trace :
  pollCycle time_Parse url_Parse http_Get urls trace ->
  exists batch errs,
    trace = Logged (TimeToFetch (List.length urls))
            :: SentDB batch
            :: map (fun e => Logged (Problem e)) errs
            ++ [Logged DoneFetching]
    /\ Permutation batch
         (flat_map (feedEntries time_Parse url_Parse http_Get)
                   (launched urls))
    /\ Permutation errs
         (flat_map (feedErrors time_Parse url_Parse http_Get)
                   (launched urls)).
Proof.
  intro Hrun. destruct (pollCycle_shape urls trace Hrun) as (arrivals & H).
  exists (batchOf arrivals), (errorsOf arrivals). exact H.
Qed.

(** X5: when every fetch of a poll cycle fails (the network is down), the
    cycle still sends its batch, the empty one, and once the cache actor has
    taken it, readers are shown the empty list, whatever snapshot was
    installed before. *)
Theorem fetch_all_fail_empties_listing urls trace :
  (forall u, In u (launched urls) ->
             exists e, sends time_Parse url_Parse http_Get u (OnEC e)) ->
  pollCycle time_Parse url_Parse http_Get urls trace ->
  sent trace = [[]]
  /\ forall gob_Encode before io n disk evs final,
       feedCache gob_Encode (before ++ ToSave [] io :: repeat ToShow n) disk
       = (evs, Continues final) ->
       exists evs', evs = evs' ++ Installed [] :: repeat (Shown []) n.
Proof.
  intros Hfail Hrun. split.
  - destruct (pollCycle_shape urls trace Hrun) as (arrivals & -> & Hb & _).
    assert (Hnone : flat_map (feedEntries time_Parse url_Parse http_Get)
                             (launched urls) = []).
    { clear Hb. induction (launched urls) as [|u l IH]; [reflexivity|].
      simpl.
      destruct (Hfail u (or_introl eq_refl)) as (e & lg & He).
      unfold feedEntries at 1. rewrite He. simpl.
      apply IH. intros v Hv. apply Hfail. right. exact Hv. }
    rewrite Hnone in Hb. apply Permutation_sym, Permutation_nil in Hb.
    rewrite Hb. simpl. rewrite sent_app, sent_logged. reflexivity.
  - intros gob_Encode before io n disk evs final. unfold feedCache.
    rewrite feedCache_loop_app.
    destruct (feedCache_loop gob_Encode before [] disk)
      as [t1 [[f d]|]]; [|discriminate].
    rewrite feedCache_loop_cons.
    pose proof (feedCache_select_cases gob_Encode (ToSave [] io) f d) as Hc.
    cbv beta iota in Hc. rewrite Hc. clear Hc.
    destruct (saveFeeds gob_Encode io [] d) as [d'|].
    + rewrite feedCache_loop_reads. simpl. intro H. injection H as <- _.
      exists t1. reflexivity.
    + simpl. discriminate.
Qed.

End CycleProperties.

(** ** Schedule of the poller *)

Section ScheduleProperties.

Variable time_Parse : string -> string -> time.Time * option error.
Variable url_Parse : string -> string + error.
Variable http_Get : string -> xml.Document + error.
Variable gob_Decode : list Byte.byte -> list Entry * option error.






End ScheduleProperties.

(** ** The cache file follows the snapshot *)

Section CacheFile.

Variable gob_Encode : list Entry -> list Byte.byte * option error.
Variable gob_Decode : list Byte.byte -> list Entry * option error.

Hypothesis gob_round_trip :
  forall feeds,
    encodable feeds ->
    exists bytes,
      gob_Encode feeds = (bytes, None) /\ gob_Decode bytes = (feeds, None).

Lemma feedCache_loop_faultless ready feedz disk :
  faultless ready ->
  storable ready ->
  exists trace feedz' disk',
    feedCache_loop gob_Encode ready feedz disk
    = (trace, Continues (feedz', disk'))
    /\ (Forall (eq ToShow) ready /\ feedz' = feedz /\ disk' = disk
        \/ encodable feedz' /\ disk' = Some (fst (gob_Encode feedz'))).
Proof.
  intros Hok Hst. revert feedz disk.
  induction Hok as [|c ready Hc _ IH]; intros feedz disk.
  - exists [], feedz, disk. split; [reflexivity|]. left. repeat split.
    constructor.
  - inversion Hst as [|? ? Hnew Hrest]; subst.
    specialize (IH Hrest).
    rewrite feedCache_loop_cons. destruct c as [|new io].
    + cbn [feedCache_select].
      destruct (IH feedz disk) as (trace & f & d & -> & Hinv).
      exists (Shown feedz :: trace), f, d. split; [reflexivity|].
      destruct Hinv as [(Hr & -> & ->)|Hd]; [left | right; exact Hd].
      repeat split. constructor; [reflexivity | exact Hr].
    + subst io.
      assert (Hsel : feedCache_select gob_Encode (ToSave new noFault)
                                      feedz disk
                     = (Installed new,
                        Continues (new, Some (fst (gob_Encode new))))).
      { unfold feedCache_select, saveFeeds, Encode. simpl.
        destruct (gob_Encode new). reflexivity. }
      rewrite Hsel.
      destruct (IH new (Some (fst (gob_Encode new))))
        as (trace & f & d & -> & Hinv).
      exists (Installed new :: trace), f, d. split; [reflexivity|].
      right.
      destruct Hinv as [(_ & -> & ->)|Hd]; [split; [exact Hnew|] | exact Hd].
      reflexivity.
Qed.

(** X7: as long as the operating system reports no error and every
    snapshot that comes is one [encoding/gob] encodes, the cache actor never
    exits, and once a snapshot was installed the cache file is the encoding
    of the snapshot being served: a restart at any moment sends on [db] the
    very snapshot the readers were last shown.  Before the first install the
    file is as it was found. *)
Theorem feedCache_file_follows_snapshot ready disk :
  faultless ready ->
  storable ready ->
  exists trace feedz disk',
    feedCache gob_Encode ready disk = (trace, Continues (feedz, disk'))
    /\ (Forall (eq ToShow) ready /\ feedz = [] /\ disk' = disk
        \/ disk' = Some (fst (gob_Encode feedz))
           /\ forall urls first,
                fetchFeeds gob_Decode disk' urls first []
                = Continues (Some [SentDB feedz])).
Proof.
  intros Hok Hst. unfold feedCache.
  destruct (feedCache_loop_faultless ready [] disk Hok Hst)
    as (trace & feedz & disk' & Hrun & Hinv).
  exists trace, feedz, disk'. split; [exact Hrun|].
  destruct Hinv as [Hsame|[Henc Hd]]; [left; exact Hsame | right].
  split; [exact Hd|]. intros urls first. subst disk'.
  destruct (gob_round_trip feedz Henc) as (bytes & Hbytes & Hdec).
  unfold fetchFeeds. rewrite Hbytes. simpl. rewrite Hdec. reflexivity.
Qed.

End CacheFile.

Lemma feedCache_file_follows_snapshot_witness :
  exists trace feedz disk',
    feedCache PlainCodec.Marshal
      [ToShow; ToSave [entryAt "a" T1] noFault; ToShow;
       ToSave [undated] noFault; ToShow]
      None
    = (trace, Continues (feedz, disk'))
    /\ (Forall (eq ToShow)
          [ToShow; ToSave [entryAt "a" T1] noFault; ToShow;
           ToSave [undated] noFault; ToShow]
        /\ feedz = [] /\ disk' = None
        \/ disk' = Some (fst (PlainCodec.Marshal feedz))
           /\ forall urls first,
                fetchFeeds PlainCodec.Unmarshal disk' urls first []
                = Continues (Some [SentDB feedz])).
Proof.
  apply (feedCache_file_follows_snapshot
           PlainCodec.Marshal PlainCodec.Unmarshal Unmarshal_Marshal).
  - repeat constructor.
  - repeat constructor.
Defined.

(** ** The extras on the samples *)



Lemma getFeed_error_names_URL_witness :
  @nil LogLine = []
  /\ exists cause,
       "http://nowhere/: no such host"
       = ("http://nowhere/" ++ ": " ++ cause)%string
       /\ (netParse "http://nowhere/" = inr cause
           \/ exists url,
                netParse "http://nowhere/" = inl url
                /\ (netGet url = inr cause
                    \/ exists body,
                         netGet url = inl body
                         /\ tokenError body = Some cause)).
Proof.
  exact (getFeed_error_names_URL
           (GoTime.Parse GoTime.UTC) netParse netGet
           "http://nowhere/" "http://nowhere/: no such host" [] eq_refl).
Defined.

Lemma mixed_pollCycle :
  pollCycle (GoTime.Parse GoTime.UTC) netParse netGet mixedURLs mixedTrace.
Proof.
  exists [OnEC "http://nowhere/: no such host";
          OnFC (feedEntries (GoTime.Parse GoTime.UTC) netParse netGet
                  "http://a/")].
  split; [|vm_compute; reflexivity].
  exists [OnFC (feedEntries (GoTime.Parse GoTime.UTC) netParse netGet
                  "http://a/");
          OnEC "http://nowhere/: no such host"].
  split; [|apply perm_swap].
  repeat constructor; eexists; vm_compute; reflexivity.
Qed.

Lemma fetch_with_failures_witness :
  exists batch errs,
    mixedTrace
    = Logged (TimeToFetch (List.length mixedURLs))
      :: SentDB batch
      :: map (fun e => Logged (Problem e)) errs
      ++ [Logged DoneFetching]
    /\ Permutation batch
         (flat_map (feedEntries (GoTime.Parse GoTime.UTC) netParse netGet)
                   (launched mixedURLs))
    /\ Permutation errs
         (flat_map (feedErrors (GoTime.Parse GoTime.UTC) netParse netGet)
                   (launched mixedURLs)).
Proof.
  exact (fetch_with_failures
           (GoTime.Parse GoTime.UTC) netParse netGet
           mixedURLs mixedTrace mixed_pollCycle).
Defined.

Lemma down_pollCycle :
  pollCycle (GoTime.Parse GoTime.UTC) netParse downGet netURLs downTrace.
Proof.
  exists [OnEC "http://r/: connection refused";
          OnEC "http://a/: connection refused"].
  split; [|vm_compute; reflexivity].
  exists [OnEC "http://a/: connection refused";
          OnEC "http://r/: connection refused"].
  split; [|apply perm_swap].
  repeat constructor; eexists; vm_compute; reflexivity.
Qed.

Lemma down_all_fail u :
  In u (launched netURLs) ->
  exists e, sends (GoTime.Parse GoTime.UTC) netParse downGet u (OnEC e).
Proof.
  intros [<-|[<-|[]]]; eexists; eexists; vm_compute; reflexivity.
Qed.

Lemma fetch_all_fail_empties_listing_witness :
  sent downTrace = [[]]
  /\ forall gob_Encode before io n disk evs final,
       feedCache gob_Encode (before ++ ToSave [] io :: repeat ToShow n) disk
       = (evs, Continues final) ->
       exists evs', evs = evs' ++ Installed [] :: repeat (Shown []) n.
Proof.
  exact (fetch_all_fail_empties_listing
           (GoTime.Parse GoTime.UTC) netParse downGet
           netURLs downTrace down_all_fail down_pollCycle).
Defined.

(** ** More on the normalizer *)

(** In a [channel] element the decoder reads to its end, [Items] gets one
    item for each child element named [item], in order. *)
Lemma Rss2_Channel_Items start content v :
  xml.Skip content = None ->
  Rss2.Channel.Items (fst (Rss2.Channel.unmarshal start content v))
  = Rss2.Channel.Items v ++ map rssItemOf (filter (named "item") content).
Proof.
  unfold Rss2.Channel.unmarshal. clear start.
  revert v. induction content as [|n rest IH]; intros v Hskip.
  - simpl. symmetry. apply app_nil_r.
  - apply Skip_cons in Hskip as [Hn Hrest].
    destruct n as [start inner|t| |e]; simpl; auto; [|discriminate].
    rewrite skipNode_Element in Hn.
    unfold Rss2.Channel.field at 1.
    destruct (String.eqb (xml.Local (xml.ElemName start)) "title") eqn:Etitle;
      [|destruct (String.eqb (xml.Local (xml.ElemName start)) "link") eqn:Elink;
        [|destruct (String.eqb (xml.Local (xml.ElemName start)) "item")
            eqn:Eitem]].
    + apply String.eqb_eq in Etitle. rewrite Etitle. simpl.
      rewrite (unmarshalString_ok _ _ Hn). rewrite IH by assumption.
      reflexivity.
    + apply String.eqb_eq in Elink. rewrite Elink. simpl.
      rewrite (unmarshalString_ok _ _ Hn). rewrite IH by assumption.
      reflexivity.
    + unfold xml.unmarshalAppend.
      pose proof (Rss2_Item_error start inner Rss2.Item.zero) as Herr.
      rewrite Hn in Herr.
      destruct (Rss2.Item.unmarshal start inner Rss2.Item.zero)
        as [item err] eqn:Eit.
      simpl in Herr. subst err. rewrite IH by assumption. simpl.
      rewrite Eit, <- app_assoc. reflexivity.
    + unfold xml.unmarshalSkip. rewrite Hn. apply IH. assumption.
Qed.

(** In an [rss] element the decoder reads to its end, the items of all its
    [channel] children add up, in order. *)
Lemma Rss2_Items start content v :
  xml.Skip content = None ->
  Rss2.Channel.Items (Rss2.Channel (fst (Rss2.unmarshal start content v)))
  = Rss2.Channel.Items (Rss2.Channel v) ++ map rssItemOf (itemsIn content).
Proof.
  unfold Rss2.unmarshal. clear start.
  revert v. induction content as [|n rest IH]; intros v Hskip.
  - simpl. symmetry. apply app_nil_r.
  - apply Skip_cons in Hskip as [Hn Hrest].
    destruct n as [start inner|t| |e]; simpl; auto; [|discriminate].
    rewrite skipNode_Element in Hn.
    unfold Rss2.field at 1.
    destruct (String.eqb (xml.Local (xml.ElemName start)) "channel").
    + pose proof (Rss2_Channel_error start inner (Rss2.Channel v)) as Herr.
      rewrite Hn in Herr.
      pose proof (Rss2_Channel_Items start inner (Rss2.Channel v) Hn)
        as Hitems.
      destruct (Rss2.Channel.unmarshal start inner (Rss2.Channel v))
        as [c err].
      simpl in Herr, Hitems. subst err. rewrite IH by assumption. simpl.
      rewrite Hitems, map_app, <- app_assoc. reflexivity.
    + unfold xml.unmarshalSkip. rewrite Hn. rewrite IH by assumption.
      reflexivity.
Qed.

Lemma Decode_root_rss r start content :
  root r = Some (start, content) ->
  String.eqb (rootLocal start) "rss" = true ->
  Decode r newFeed
  = (mkFeed None (Some (fst (Rss2.unmarshal start content Rss2.zero))),
     snd (Rss2.unmarshal start content Rss2.zero)).
Proof.
  intros Hroot Hname. rewrite (Decode_root _ _ _ Hroot).
  unfold UnmarshalXML, DecodeElement, newFeed. unfold rootLocal in Hname.
  rewrite Hname. simpl.
  destruct (Rss2.unmarshal start content Rss2.zero). reflexivity.
Qed.

Lemma Decode_stops_at_root before start content after after' feed :
  Decode (before ++ xml.Element start content :: after) feed
  = Decode (before ++ xml.Element start content :: after') feed.
Proof.
  induction before as [|n before IH]; [reflexivity|].
  destruct n; simpl; auto.
Qed.

Section MoreNormalizerProperties.

Variable time_Parse : string -> string -> time.Time * option error.

(** X8: a document the decoder does not read to the end of its root element
    gives no entry at all, not even those of the items read before the error,
    and no line of log: [tryParse] returns the empty list with the decoder's
    error. *)
Theorem tryParse_hard_failure r e :
  tokenError r = Some e ->
  tryParse time_Parse r = Returns ([], Some e) [].
Proof.
  intro Htok.
  destruct (tryParse_returns time_Parse r) as (entries & logged & Hret).
  rewrite Htok in Hret.
  destruct (tryParse_error_alone _ _ _ _ _ Hret) as (_ & -> & ->).
  exact Hret.
Qed.

(** X9: a document whose root element is named [rss], read to the end of
    that element, parses without error into one entry for each [item] child
    of each [channel] child of the root, in the order of the document, with
    the title and the link of the item; an [rss] element without [channel]
    gives the empty list. *)
Theorem tryParse_rss_items r start content :
  root r = Some (start, content) ->
  String.eqb (rootLocal start) "rss" = true ->
  xml.Skip content = None ->
  exists entries logged,
    tryParse time_Parse r = Returns (entries, None) logged
    /\ map Title entries
       = map (fun n => Rss2.Item.Title (rssItemOf n)) (itemsIn content)
    /\ map URL entries
       = map (fun n => Rss2.Item.Link (rssItemOf n)) (itemsIn content)
    /\ List.length entries = List.length (itemsIn content).
Proof.
  intros Hroot Hname Hskip.
  pose proof (Decode_root_rss r start content Hroot Hname) as Hdec.
  rewrite Rss2_error, Hskip in Hdec.
  rewrite (tryParse_decoded _ _ _ Hdec). cbn [atom rss].
  do 2 eexists. split; [reflexivity|].
  rewrite Rss2_Items by assumption. simpl.
  rewrite !map_map, !length_map. repeat split.
Qed.

(** X10: [tryParse] reads one element: what follows the end of the root
    element in the body, well formed or not, changes nothing of the
    result. *)
Theorem tryParse_stops_at_root :
  forall before start content after,
    tryParse time_Parse (before ++ xml.Element start content :: after)
    = tryParse time_Parse (before ++ [xml.Element start content]).
Proof.
  intros before start content after. unfold tryParse.
  rewrite (Decode_stops_at_root before start content after []).
  reflexivity.
Qed.

End MoreNormalizerProperties.

Lemma tryParse_hard_failure_witness :
  tryParse (GoTime.Parse GoTime.UTC) brokenSample
  = Returns ([], Some "XML syntax error: unexpected EOF") [].
Proof.
  exact (tryParse_hard_failure
           (GoTime.Parse GoTime.UTC) brokenSample
           "XML syntax error: unexpected EOF" eq_refl).
Defined.

Lemma tryParse_rss_items_witness :
  exists entries logged,
    tryParse (GoTime.Parse GoTime.UTC) rssSample
    = Returns (entries, None) logged
    /\ map Title entries = ["R1"; "R2"]
    /\ map URL entries = ["http://r/1"; "http://r/2"]
    /\ List.length entries = 2%nat.
Proof.
  exact (tryParse_rss_items
           (GoTime.Parse GoTime.UTC) rssSample _ _ eq_refl eq_refl eq_refl).
Defined.

(** ** Startup *)

Section StartupProperties.

Variable scanFeeds : string -> list string * option error + error.

(** X11: when [main] gets as far as starting the poller, the URL list is the
    arguments followed by the lines of the feeds file, none left out, and
    there was an argument or a feeds file; a poll cycle then starts one fetch
    for each argument and each line that is not empty, in this order.  The
    list itself may be empty: a feeds file without lines is enough to
    start. *)
Theorem main_urls_started args feeds urls :
  main_urls scanFeeds args feeds = Continues urls ->
  (args <> [] \/ feeds <> "")
  /\ (exists lines,
         urls = args ++ lines
         /\ (if String.eqb feeds "" then lines = []
             else scanFeeds feeds = inl (lines, None))
         /\ spawn urls
            = (List.length (launched args) + List.length (launched lines),
               launched args ++ launched lines)%nat).
Proof.
  unfold main_urls.
  assert (Hargs : (if (0 <? List.length args)%nat then [] ++ args else [])
                  = args).
  { destruct args; reflexivity. }
  rewrite Hargs. clear Hargs.
  assert (Hspawn : forall lines,
             spawn (args ++ lines)
             = (List.length (launched args) + List.length (launched lines),
                launched args ++ launched lines)%nat).
  { intro lines. rewrite spawn_launched. unfold launched.
    rewrite filter_app, length_app. reflexivity. }
  destruct (String.eqb feeds "") eqn:Hfeeds.
  - destruct args as [|a args]; [simpl; discriminate|].
    cbn [List.length Nat.eqb andb].
    intro H. injection H as <-. split; [left; discriminate|].
    exists []. split; [rewrite app_nil_r; reflexivity|].
    split; [reflexivity|].
    rewrite <- (app_nil_r (a :: args)) at 1. apply Hspawn.
  - rewrite andb_false_r. simpl.
    destruct (scanFeeds feeds) as [[lines [err|]]|err]; simpl;
      try discriminate.
    intro H. injection H as <-. split.
    + right. intros ->. discriminate.
    + exists lines. split; [reflexivity|]. split; [reflexivity|].
      apply Hspawn.
Qed.


End StartupProperties.

Lemma main_urls_started_witness :
  (["http://a/"] <> [] \/ "feeds.txt" <> "")
  /\ (exists lines,
         ["http://a/"; "http://r/"; "http://b/"] = ["http://a/"] ++ lines
         /\ sampleScan "feeds.txt" = inl (lines, None)
         /\ spawn ["http://a/"; "http://r/"; "http://b/"]
            = (List.length (launched ["http://a/"])
               + List.length (launched lines),
               launched ["http://a/"] ++ launched lines)%nat).
Proof.
  exact (main_urls_started
           sampleScan ["http://a/"] "feeds.txt"
           ["http://a/"; "http://r/"; "http://b/"] eq_refl).
Defined.


(** ** The daily page *)

Lemma byName_ordering : LessOrdering Day.byName.
Proof.
  unfold Day.byName, String.ltb. split.
  - intro a.
    pose proof (proj2 (String_as_OT.cmp_eq (Day.Name a) (Day.Name a)) eq_refl)
      as Haa.
    unfold String_as_OT.cmp in Haa. rewrite Haa. reflexivity.
  - intros a b c Hab Hbc.
    destruct (String.compare (Day.Name a) (Day.Name b)) eqn:Eab;
      try discriminate.
    destruct (String.compare (Day.Name b) (Day.Name c)) eqn:Ebc;
      try discriminate.
    apply String_as_OT.cmp_lt in Eab, Ebc.
    pose proof (String_as_OT.lt_trans _ _ _ Eab Ebc) as Hac.
    apply String_as_OT.cmp_lt in Hac. unfold String_as_OT.cmp in Hac.
    rewrite Hac. reflexivity.
  - intros a b c Hab Hbc.
    destruct (String.compare (Day.Name a) (Day.Name b)) eqn:Eab;
      try discriminate.
    + apply String_as_OT.cmp_eq in Eab. rewrite Eab. exact Hbc.
    + destruct (String.compare (Day.Name b) (Day.Name c)) eqn:Ebc;
        try discriminate.
      * apply String_as_OT.cmp_eq in Ebc. rewrite <- Ebc, Eab. reflexivity.
      * assert (Hba : String_as_OT.lt (Day.Name b) (Day.Name a)).
        { apply String_as_OT.cmp_lt. rewrite String_as_OT.cmp_antisym.
          unfold String_as_OT.cmp. rewrite Eab. reflexivity. }
        assert (Hcb : String_as_OT.lt (Day.Name c) (Day.Name b)).
        { apply String_as_OT.cmp_lt. rewrite String_as_OT.cmp_antisym.
          unfold String_as_OT.cmp. rewrite Ebc. reflexivity. }
        pose proof (String_as_OT.lt_trans _ _ _ Hcb Hba) as Hca.
        apply String_as_OT.cmp_lt in Hca.
        rewrite String_as_OT.cmp_antisym in Hca.
        unfold String_as_OT.cmp in Hca.
        destruct (String.compare (Day.Name a) (Day.Name c));
          try discriminate; reflexivity.
Qed.

(** The map: what a key reads after an assignment, and which keys there
    are. *)
Lemma index_assign sites s v k :
  Day.index (Day.assign sites s v) k
  = if String.eqb k s then v else Day.index sites k.
Proof.
  induction sites as [|[k' w] rest IH]; simpl.
  - destruct (String.eqb k s); reflexivity.
  - destruct (String.eqb s k') eqn:Es; simpl.
    + apply String.eqb_eq in Es. subst k'.
      destruct (String.eqb k s); reflexivity.
    + destruct (String.eqb k k') eqn:Ek.
      * apply String.eqb_eq in Ek. subst k'.
        rewrite String.eqb_sym in Es. rewrite Es. reflexivity.
      * exact IH.
Qed.

Lemma keys_assign sites s v k :
  In k (map fst (Day.assign sites s v)) <-> k = s \/ In k (map fst sites).
Proof.
  induction sites as [|[k' w] rest IH]; simpl.
  - intuition congruence.
  - destruct (String.eqb s k') eqn:Es; simpl.
    + apply String.eqb_eq in Es. subst k'. intuition congruence.
    + rewrite IH. tauto.
Qed.

Lemma keys_assign_NoDup sites s v :
  NoDup (map fst sites) -> NoDup (map fst (Day.assign sites s v)).
Proof.
  induction sites as [|[k' w] rest IH]; simpl; intro Hnd.
  - constructor; [intros []| constructor].
  - destruct (String.eqb s k') eqn:Es; simpl; [exact Hnd|].
    inversion Hnd as [|? ? Hnotin Hrest]; subst.
    constructor; [|apply IH, Hrest].
    rewrite keys_assign. intros [->|Hin]; [|exact (Hnotin Hin)].
    rewrite String.eqb_refl in Es. discriminate.
Qed.

(** The first loop of [showDaily] files each entry under its feed, in the
    order of the listing; the keys are the feeds that have an entry. *)
Lemma bySite_snoc entries e :
  Day.bySite (entries ++ [e])
  = Day.assign (Day.bySite entries) (FeedName e)
      (Day.index (Day.bySite entries) (FeedName e) ++ [e]).
Proof. unfold Day.bySite. rewrite fold_left_app. reflexivity. Qed.

Lemma ofFeed_snoc name entries e :
  ofFeed name (entries ++ [e])
  = ofFeed name entries ++ (if String.eqb (FeedName e) name then [e] else []).
Proof.
  unfold ofFeed. rewrite filter_app. simpl.
  destruct (String.eqb (FeedName e) name); reflexivity.
Qed.

Lemma bySite_index entries s :
  Day.index (Day.bySite entries) s = ofFeed s entries.
Proof.
  induction entries as [|e entries IH] using rev_ind; [reflexivity|].
  rewrite bySite_snoc, index_assign, ofFeed_snoc.
  destruct (String.eqb s (FeedName e)) eqn:Es.
  - apply String.eqb_eq in Es. subst s. rewrite String.eqb_refl, IH.
    reflexivity.
  - rewrite String.eqb_sym, Es, app_nil_r. exact IH.
Qed.

Lemma bySite_keys entries s :
  In s (map fst (Day.bySite entries)) <-> In s (map FeedName entries).
Proof.
  induction entries as [|e entries IH] using rev_ind; [reflexivity|].
  rewrite bySite_snoc, keys_assign, IH, map_app, in_app_iff. simpl.
  intuition congruence.
Qed.

Lemma bySite_NoDup entries : NoDup (map fst (Day.bySite entries)).
Proof.
  induction entries as [|e entries IH] using rev_ind; [constructor|].
  rewrite bySite_snoc. apply keys_assign_NoDup, IH.
Qed.

Lemma ofFeed_In name entries e :
  In e (ofFeed name entries) <-> In e entries /\ FeedName e = name.
Proof.
  unfold ofFeed. rewrite filter_In, String.eqb_eq. reflexivity.
Qed.

(** A list is made of the entries of its feeds. *)
Lemma filter_disjoint {A : Type} (p q : A -> bool) l :
  (forall a, p a = true -> q a = true -> False) ->
  Permutation (filter (fun a => p a || q a) l) (filter p l ++ filter q l).
Proof.
  intro Hdis. induction l as [|a l IH]; simpl; [constructor|].
  destruct (p a) eqn:Hp, (q a) eqn:Hq; simpl.
  - destruct (Hdis a Hp Hq).
  - constructor. exact IH.
  - apply Permutation_cons_app. exact IH.
  - exact IH.
Qed.

Lemma ofFeeds_filter keys entries :
  NoDup keys ->
  Permutation
    (flat_map (fun s => ofFeed s entries) keys)
    (filter (fun e => existsb (String.eqb (FeedName e)) keys) entries).
Proof.
  induction 1 as [|k keys Hnotin Hnd IH]; simpl.
  - induction entries; [constructor | assumption].
  - rewrite (filter_disjoint
               (fun e => String.eqb (FeedName e) k)
               (fun e => existsb (String.eqb (FeedName e)) keys)).
    + apply Permutation_app_head, IH.
    + intros e Hk Hks. apply String.eqb_eq in Hk.
      apply existsb_exists in Hks as (k' & Hin & Hk').
      apply String.eqb_eq in Hk'. apply Hnotin. congruence.
Qed.

Lemma ofFeeds_all keys entries :
  NoDup keys ->
  (forall e, In e entries -> In (FeedName e) keys) ->
  Permutation (flat_map (fun s => ofFeed s entries) keys) entries.
Proof.
  intros Hnd Hall. rewrite (ofFeeds_filter keys entries Hnd).
  assert (Heq : filter (fun e => existsb (String.eqb (FeedName e)) keys)
                  entries = entries).
  { clear Hnd. induction entries as [|e entries IH]; [reflexivity|]. simpl.
    assert (He : existsb (String.eqb (FeedName e)) keys = true).
    { apply existsb_exists. exists (FeedName e).
      split; [apply Hall; left; reflexivity | apply String.eqb_refl]. }
    rewrite He, IH; [reflexivity|].
    intros e' He'. apply Hall. right. exact He'. }
  rewrite Heq. reflexivity.
Qed.

(** The second loop of [showDaily], key by key. *)
Lemma rangeSites_loop sites keys d :
  fold_left
    (fun d s =>
       match Day.index sites s with
       | [single] => Day.mkDaily (Day.Sites d) (Day.Singles d ++ [single])
       | entries =>
           Day.mkDaily (Day.Sites d ++ [Day.mkSite s entries]) (Day.Singles d)
       end)
    keys d
  = Day.mkDaily (Day.Sites d ++ flat_map (siteOf sites) keys)
                (Day.Singles d ++ flat_map (singleOf sites) keys).
Proof.
  revert d. induction keys as [|s keys IH]; intro d; simpl.
  - rewrite !app_nil_r. destruct d; reflexivity.
  - rewrite IH. unfold siteOf, singleOf.
    destruct (Day.index sites s) as [|e [|e' rest]]; simpl;
      rewrite <- ?app_assoc; reflexivity.
Qed.

Lemma rangeSites_Sites sites keys :
  Day.Sites (Day.rangeSites sites keys) = flat_map (siteOf sites) keys.
Proof. unfold Day.rangeSites. rewrite rangeSites_loop. reflexivity. Qed.

Lemma rangeSites_Singles sites keys :
  Day.Singles (Day.rangeSites sites keys) = flat_map (singleOf sites) keys.
Proof. unfold Day.rangeSites. rewrite rangeSites_loop. reflexivity. Qed.

Lemma rangeSites_split sites keys :
  Permutation
    (flat_map (singleOf sites) keys
     ++ flat_map Day.Entries (flat_map (siteOf sites) keys))
    (flat_map (Day.index sites) keys).
Proof.
  induction keys as [|s keys IH]; simpl; [constructor|].
  rewrite flat_map_app, <- IH.
  unfold singleOf at 1, siteOf at 1.
  destruct (Day.index sites s) as [|e [|e' rest]]; simpl.
  - reflexivity.
  - reflexivity.
  - rewrite app_nil_r.
    change (e :: e' :: rest ++ ?l) with ((e :: e' :: rest) ++ l).
    apply Permutation_app_swap_app.
Qed.

Lemma windowed_loop begin end_ feeds acc :
  fold_left
    (fun filtered i =>
       if time.After (When i) begin
          && (time.IsZero end_ || time.After end_ (When i))
       then filtered ++ [i] else filtered)
    feeds acc
  = acc ++ filter
             (fun i =>
                time.After (When i) begin
                && (time.IsZero end_ || time.After end_ (When i)))
             feeds.
Proof.
  revert acc. induction feeds as [|i feeds IH]; intro acc; simpl.
  - symmetry. apply app_nil_r.
  - rewrite IH.
    destruct (time.After (When i) begin
              && (time.IsZero end_ || time.After end_ (When i))); simpl.
    + rewrite <- app_assoc. reflexivity.
    + reflexivity.
Qed.

(** X13: with the zero time as [end] the filter of the daily edition is the
    filter of the listing edition: there is no upper bound then. *)
Theorem filterEntries_open_end
    (sort_Slice : forall A : Type, list A -> (A -> A -> bool) -> list A)
    feeds begin end_ :
  time.IsZero end_ = true ->
  Day.filterEntries sort_Slice feeds begin end_
  = filterEntries sort_Slice feeds begin.
Proof.
  intro Hzero. unfold Day.filterEntries, filterEntries.
  rewrite windowed_loop, filtered_loop. f_equal. simpl.
  apply filter_ext. intro e. rewrite Hzero. simpl. apply andb_true_r.
Qed.

Lemma filterEntries_open_end_witness :
  Day.filterEntries (@insertionSort) snapshot day0 time.zero
  = filterEntries (@insertionSort) snapshot day0.
Proof.
  apply (filterEntries_open_end (@insertionSort) snapshot day0 time.zero).
  reflexivity.
Defined.

Lemma StronglySorted_filter {A : Type} (R : A -> A -> Prop) (p : A -> bool)
    l :
  StronglySorted R l -> StronglySorted R (filter p l).
Proof.
  induction 1 as [|a l Hl IH Ha]; simpl; [constructor|].
  destruct (p a); [|exact IH]. constructor; [exact IH|].
  rewrite Forall_forall in *. intros b Hb.
  apply filter_In in Hb as [Hb _]. apply Ha, Hb.
Qed.

(** Strictly ascending lists with the same elements are the same list. *)
Lemma ascending_unique {A : Type} (R : A -> A -> Prop) (l l' : list A) :
  (forall a b, R a b -> R b a -> False) ->
  StronglySorted R l -> StronglySorted R l' -> Permutation l l' -> l = l'.
Proof.
  intros Hasym Hl. revert l'.
  induction Hl as [|a l Hl IH Ha]; intros l' Hl' Hperm.
  - apply Permutation_nil in Hperm. symmetry. exact Hperm.
  - destruct Hl' as [|a' l' Hl' Ha'].
    + symmetry in Hperm. apply Permutation_nil in Hperm. discriminate.
    + assert (Heq : a = a').
      { rewrite Forall_forall in Ha, Ha'.
        assert (Hin : In a (a' :: l'))
          by (apply (Permutation_in _ Hperm); left; reflexivity).
        assert (Hin' : In a' (a :: l)).
        { apply (Permutation_in _ (Permutation_sym Hperm)).
          left; reflexivity. }
        destruct Hin as [->|Hin]; [reflexivity|].
        destruct Hin' as [->|Hin']; [reflexivity|].
        destruct (Hasym a a' (Ha _ Hin') (Ha' _ Hin)). }
      subst a'. f_equal. apply IH; [exact Hl'|].
      apply Permutation_cons_inv in Hperm. exact Hperm.
Qed.

Lemma ltb_asym a b : String.ltb a b = true -> String.ltb b a = true -> False.
Proof.
  unfold String.ltb. rewrite (String.compare_antisym a b).
  destruct (String.compare b a); simpl; intros H1 H2; discriminate.
Qed.

Lemma ltb_total a b : String.ltb b a = false -> a <> b -> String.ltb a b = true.
Proof.
  unfold String.ltb. rewrite (String.compare_antisym a b).
  destruct (String.compare b a) eqn:E; simpl; try discriminate.
  - apply String_as_OT.cmp_eq in E. congruence.
  - reflexivity.
Qed.

(** Sites sorted by [sort.Slice] whose names differ are in strictly ascending
    order of name. *)
Lemma IsSorted_byName_strict sites :
  NoDup (map Day.Name sites) ->
  IsSorted Day.byName sites ->
  StronglySorted
    (fun a b => String.ltb (Day.Name a) (Day.Name b) = true) sites.
Proof.
  intros Hnd Hsorted.
  apply Sorted_StronglySorted in Hsorted.
  - induction Hsorted as [|a l Hl IH Ha]; constructor.
    + apply IH. inversion Hnd; assumption.
    + inversion Hnd as [|? ? Hnotin _]; subst.
      rewrite Forall_forall in *. intros b Hb.
      apply ltb_total; [exact (Ha b Hb)|].
      intro Heq. apply Hnotin. rewrite Heq. apply in_map, Hb.
  - intros a b c Hab Hbc.
    exact (less_neg_trans _ byName_ordering _ _ _ Hbc Hab).
Qed.

(** The sites of the second loop: one for each key that holds more than one
    entry, under the key's name. *)
Lemma siteOf_In sites keys site :
  In site (flat_map (siteOf sites) keys) <->
  In (Day.Name site) keys
  /\ Day.Entries site = Day.index sites (Day.Name site)
  /\ List.length (Day.Entries site) <> 1%nat.
Proof.
  rewrite in_flat_map. unfold siteOf. split.
  - intros (s & Hs & Hin).
    destruct (Day.index sites s) as [|e [|e' rest]] eqn:E; simpl in Hin;
      try contradiction;
      destruct Hin as [<-|[]]; simpl; rewrite E;
      (split; [exact Hs|]); (split; [reflexivity|]); simpl; discriminate.
  - intros (Hin & Hentries & Hlen). exists (Day.Name site).
    split; [exact Hin|]. destruct site as [name entries]. simpl in *.
    rewrite <- Hentries.
    destruct entries as [|e [|e' rest]]; simpl;
      [left; reflexivity | destruct Hlen; reflexivity | left; reflexivity].
Qed.

Lemma siteOf_names sites keys :
  NoDup keys -> NoDup (map Day.Name (flat_map (siteOf sites) keys)).
Proof.
  induction 1 as [|s keys Hnotin Hnd IH]; simpl; [constructor|].
  rewrite map_app. unfold siteOf at 1.
  destruct (Day.index sites s) as [|e [|e' rest]]; simpl;
    try exact IH; (constructor; [|exact IH]);
    intro Hin; apply in_map_iff in Hin as (site & Hname & Hsite);
    apply siteOf_In in Hsite as (Hkey & _); simpl in Hname;
    apply Hnotin; rewrite <- Hname; exact Hkey.
Qed.

Lemma singleOf_In sites keys e :
  In e (flat_map (singleOf sites) keys) <->
  exists s, In s keys /\ Day.index sites s = [e].
Proof.
  rewrite in_flat_map. unfold singleOf.
  split; intros (s & Hs & H); exists s; (split; [exact Hs|]).
  - destruct (Day.index sites s) as [|e0 [|e' rest]]; simpl in H;
      try contradiction. destruct H as [->|[]]. reflexivity.
  - rewrite H. left. reflexivity.
Qed.

Section DailyProperties.

Variable sort_Slice : forall A : Type, list A -> (A -> A -> bool) -> list A.

Hypothesis sort_Slice_Permutation :
  forall A (x : list A) less, Permutation (sort_Slice A x less) x.

Lemma windowed_Permutation feeds begin end_ :
  Permutation
    (Day.filterEntries sort_Slice feeds begin end_)
    (filter
       (fun i =>
          time.After (When i) begin
          && (time.IsZero end_ || time.After end_ (When i)))
       feeds).
Proof.
  unfold Day.filterEntries.
  rewrite sort_Slice_Permutation, windowed_loop. reflexivity.
Qed.

Lemma rangeOrder_NoDup entries keys :
  Day.rangeOrder (Day.bySite entries) keys -> NoDup keys.
Proof.
  intro Hrange. apply (Permutation_NoDup (Permutation_sym Hrange)).
  apply bySite_NoDup.
Qed.

Lemma rangeOrder_In entries keys s :
  Day.rangeOrder (Day.bySite entries) keys ->
  In s keys <-> In s (map FeedName entries).
Proof.
  intro Hrange. rewrite <- bySite_keys. split; apply Permutation_in.
  - exact Hrange.
  - symmetry. exact Hrange.
Qed.

Lemma showDaily_Sites day feeds keys :
  Permutation
    (Day.Sites (Day.showDaily sort_Slice day feeds keys))
    (flat_map
       (siteOf
          (Day.bySite
             (Day.filterEntries sort_Slice feeds day
                (Day.AddDate_1day day))))
       keys).
Proof.
  unfold Day.showDaily. simpl.
  rewrite sort_Slice_Permutation, rangeSites_Sites. reflexivity.
Qed.

Lemma showDaily_Singles day feeds keys :
  Day.Singles (Day.showDaily sort_Slice day feeds keys)
  = flat_map
      (singleOf
         (Day.bySite
            (Day.filterEntries sort_Slice feeds day (Day.AddDate_1day day))))
      keys.
Proof. unfold Day.showDaily. simpl. apply rangeSites_Singles. Qed.

Lemma Permutation_flat_map_Entries l l' :
  Permutation l l' ->
  Permutation (flat_map Day.Entries l) (flat_map Day.Entries l').
Proof.
  induction 1 as [|a l l' _ IH|a b l|l l' l'' _ IH1 _ IH2]; simpl.
  - constructor.
  - apply Permutation_app_head, IH.
  - rewrite !app_assoc. apply Permutation_app_tail, Permutation_app_comm.
  - etransitivity; eassumption.
Qed.

Lemma showDaily_shown day feeds keys :
  Day.rangeOrder
    (Day.bySite
       (Day.filterEntries sort_Slice feeds day (Day.AddDate_1day day)))
    keys ->
  Permutation
    (shown (Day.showDaily sort_Slice day feeds keys))
    (Day.filterEntries sort_Slice feeds day (Day.AddDate_1day day)).
Proof.
  intro Hrange. unfold shown.
  rewrite showDaily_Singles.
  rewrite (Permutation_flat_map_Entries _ _ (showDaily_Sites day feeds keys)).
  rewrite rangeSites_split.
  set (listing := Day.filterEntries sort_Slice feeds day
                    (Day.AddDate_1day day)) in *.
  rewrite (flat_map_ext _ (fun s => ofFeed s listing));
    [|intro s; apply bySite_index].
  apply ofFeeds_all.
  - exact (rangeOrder_NoDup _ _ Hrange).
  - intros e He. apply (rangeOrder_In _ _ _ Hrange). apply in_map, He.
Qed.

(** X14: the daily page shows the entries of one day, each once: for a [day]
    of the common era the entries on the page, singles and sites together,
    are the entries of the snapshot dated after [day] and before the same
    time on the next day, each as often as the snapshot holds it.  An entry
    dated [day] itself or the next day's same time is on neither day's
    page. *)
Theorem showDaily_entries_of_the_day day feeds keys :
  (0 <= time.sec day)%Z ->
  Day.rangeOrder
    (Day.bySite
       (Day.filterEntries sort_Slice feeds day (Day.AddDate_1day day)))
    keys ->
  Permutation
    (shown (Day.showDaily sort_Slice day feeds keys))
    (filter
       (fun e =>
          time.After (When e) day
          && time.After (Day.AddDate_1day day) (When e))
       feeds)
  /\ (forall e,
        When e = day \/ When e = Day.AddDate_1day day ->
        ~ In e (shown (Day.showDaily sort_Slice day feeds keys))).
Proof.
  intros Hera Hrange.
  assert (Hperm :
            Permutation
              (shown (Day.showDaily sort_Slice day feeds keys))
              (filter
                 (fun e =>
                    time.After (When e) day
                    && time.After (Day.AddDate_1day day) (When e))
                 feeds)).
  { rewrite (showDaily_shown day feeds keys Hrange), windowed_Permutation.
    assert (Hnz : time.IsZero (Day.AddDate_1day day) = false).
    { unfold time.IsZero, Day.AddDate_1day. simpl.
      apply andb_false_iff. left. apply Z.eqb_neq. lia. }
    rewrite Hnz. reflexivity. }
  split; [exact Hperm|].
  intros e Hwhen Hin. apply (Permutation_in _ Hperm) in Hin.
  apply filter_In in Hin as [_ Hin]. apply andb_true_iff in Hin as [Hb He].
  destruct Hwhen as [Hw|Hw]; rewrite Hw in *;
    rewrite After_irrefl in *; discriminate.
Qed.

Hypothesis sort_Slice_IsSorted :
  forall A (x : list A) less,
    LessOrdering less -> IsSorted less (sort_Slice A x less).

Lemma windowed_descending feeds begin end_ :
  StronglySorted (fun a b => time.After (When b) (When a) = false)
                 (Day.filterEntries sort_Slice feeds begin end_).
Proof.
  unfold Day.filterEntries. apply Sorted_StronglySorted.
  - intros a b c Hab Hbc. eapply After_neg_trans; eassumption.
  - apply (sort_Slice_IsSorted Entry _ moreRecent moreRecent_ordering).
Qed.

(** X15: with an [end] that is not the zero time, [filterEntries] of the
    daily edition returns the entries dated strictly between [begin] and
    [end], most recent first; they are the entries the one-bound filter
    keeps for [begin] that [end] is after; and there are none when [end] is
    not after [begin]. *)
Theorem filterEntries_window feeds begin end_ :
  time.IsZero end_ = false ->
  (forall e,
      In e (Day.filterEntries sort_Slice feeds begin end_) <->
      In e feeds
      /\ time.After (When e) begin = true
      /\ time.After end_ (When e) = true)
  /\ StronglySorted (fun a b => time.After (When b) (When a) = false)
                    (Day.filterEntries sort_Slice feeds begin end_)
  /\ Permutation
       (Day.filterEntries sort_Slice feeds begin end_)
       (filter (fun e => time.After end_ (When e))
               (filterEntries sort_Slice feeds begin))
  /\ (time.After end_ begin = false ->
      Day.filterEntries sort_Slice feeds begin end_ = []).
Proof.
  intro Hnz.
  pose proof (windowed_Permutation feeds begin end_) as Hperm.
  rewrite Hnz in Hperm. simpl in Hperm.
  assert (Hin : forall e,
             In e (Day.filterEntries sort_Slice feeds begin end_) <->
             In e feeds
             /\ time.After (When e) begin = true
             /\ time.After end_ (When e) = true).
  { intro e.
    pose proof (filter_In
                  (fun i => time.After (When i) begin
                            && time.After end_ (When i)) e feeds) as Hf.
    simpl in Hf. rewrite andb_true_iff in Hf. rewrite <- Hf.
    split; apply Permutation_in; [exact Hperm | symmetry; exact Hperm]. }
  split; [exact Hin|]. split; [apply windowed_descending|]. split.
  - rewrite Hperm.
    rewrite (Permutation_filter _ _ _
               (filterEntries_Permutation sort_Slice sort_Slice_Permutation
                  feeds begin)).
    clear. induction feeds as [|i feeds IH]; simpl; [constructor|].
    destruct (time.After (When i) begin); simpl; [|exact IH].
    destruct (time.After end_ (When i)); [constructor|]; exact IH.
  - intro Hempty.
    destruct (Day.filterEntries sort_Slice feeds begin end_) as [|e l] eqn:E;
      [reflexivity|].
    destruct (proj1 (Hin e) (or_introl eq_refl)) as (_ & Hb & He).
    rewrite (After_trans _ _ _ He Hb) in Hempty. discriminate.
Qed.

Lemma showDaily_Sites_facts day feeds keys :
  Day.rangeOrder
    (Day.bySite
       (Day.filterEntries sort_Slice feeds day (Day.AddDate_1day day)))
    keys ->
  Forall
    (fun site =>
       Day.Entries site
       = ofFeed (Day.Name site)
           (Day.filterEntries sort_Slice feeds day (Day.AddDate_1day day))
       /\ (2 <= List.length (Day.Entries site))%nat)
    (Day.Sites (Day.showDaily sort_Slice day feeds keys))
  /\ StronglySorted
       (fun a b => String.ltb (Day.Name a) (Day.Name b) = true)
       (Day.Sites (Day.showDaily sort_Slice day feeds keys)).
Proof.
  intro Hrange.
  pose proof (showDaily_Sites day feeds keys) as Hperm.
  set (listing := Day.filterEntries sort_Slice feeds day
                    (Day.AddDate_1day day)) in *.
  split.
  - apply Forall_forall. intros site Hsite.
    apply (Permutation_in _ Hperm) in Hsite.
    apply siteOf_In in Hsite as (Hkey & Hentries & Hlen).
    rewrite bySite_index in Hentries. split; [exact Hentries|].
    apply (rangeOrder_In _ _ _ Hrange) in Hkey.
    apply in_map_iff in Hkey as (e & Hname & He).
    assert (Hin : In e (Day.Entries site)).
    { rewrite Hentries. apply ofFeed_In. split; assumption. }
    destruct (Day.Entries site) as [|e1 [|e2 rest]]; simpl in *;
      [contradiction | congruence | lia].
  - apply IsSorted_byName_strict.
    + apply (Permutation_NoDup
               (Permutation_map Day.Name (Permutation_sym Hperm))).
      apply siteOf_names, (rangeOrder_NoDup _ _ Hrange).
    + unfold Day.showDaily. simpl.
      apply sort_Slice_IsSorted, byName_ordering.
Qed.

(** X16: on the daily page a feed with one entry of the day is among the
    singles, and a feed with more is a site: a site holds all the entries of
    the day of the feed it is named after, two at least and most recent
    first, a single is the only entry of the day of its feed, and the sites
    are in strictly ascending order of name, so no feed has two sites. *)
Theorem showDaily_groups_by_feed day feeds keys :
  Day.rangeOrder
    (Day.bySite
       (Day.filterEntries sort_Slice feeds day (Day.AddDate_1day day)))
    keys ->
  Forall
    (fun site =>
       Day.Entries site
       = ofFeed (Day.Name site)
           (Day.filterEntries sort_Slice feeds day (Day.AddDate_1day day))
       /\ (2 <= List.length (Day.Entries site))%nat
       /\ StronglySorted (fun a b => time.After (When b) (When a) = false)
            (Day.Entries site))
    (Day.Sites (Day.showDaily sort_Slice day feeds keys))
  /\ Forall
       (fun e =>
          ofFeed (FeedName e)
            (Day.filterEntries sort_Slice feeds day (Day.AddDate_1day day))
          = [e])
       (Day.Singles (Day.showDaily sort_Slice day feeds keys))
  /\ StronglySorted
       (fun a b => String.ltb (Day.Name a) (Day.Name b) = true)
       (Day.Sites (Day.showDaily sort_Slice day feeds keys)).
Proof.
  intro Hrange.
  destruct (showDaily_Sites_facts day feeds keys Hrange) as [Hsites Hsorted].
  split; [|split; [|exact Hsorted]].
  - rewrite Forall_forall in *. intros site Hsite.
    destruct (Hsites site Hsite) as [Hentries Hlen].
    split; [exact Hentries|]. split; [exact Hlen|].
    rewrite Hentries. unfold ofFeed.
    apply StronglySorted_filter, windowed_descending.
  - apply Forall_forall. intros e He.
    rewrite showDaily_Singles in He.
    apply singleOf_In in He as (s & Hs & Hindex).
    rewrite bySite_index in Hindex.
    assert (Hin : In e (ofFeed s
                          (Day.filterEntries sort_Slice feeds day
                             (Day.AddDate_1day day)))).
    { rewrite Hindex. left. reflexivity. }
    apply ofFeed_In in Hin as [_ ->]. exact Hindex.
Qed.

(** X17: the order in which [range] takes the keys of the map shows in the
    order of the singles only: two runs on the same snapshot give the same
    sites and the same singles, the singles in an order that may differ. *)
Theorem showDaily_order_of_range day feeds keys keys' :
  Day.rangeOrder
    (Day.bySite
       (Day.filterEntries sort_Slice feeds day (Day.AddDate_1day day)))
    keys ->
  Day.rangeOrder
    (Day.bySite
       (Day.filterEntries sort_Slice feeds day (Day.AddDate_1day day)))
    keys' ->
  Day.Sites (Day.showDaily sort_Slice day feeds keys)
  = Day.Sites (Day.showDaily sort_Slice day feeds keys')
  /\ Permutation
       (Day.Singles (Day.showDaily sort_Slice day feeds keys))
       (Day.Singles (Day.showDaily sort_Slice day feeds keys')).
Proof.
  intros Hrange Hrange'.
  assert (Hkeys : Permutation keys keys').
  { unfold Day.rangeOrder in *. rewrite Hrange, Hrange'. reflexivity. }
  split.
  - apply (ascending_unique
             (fun a b => String.ltb (Day.Name a) (Day.Name b) = true)).
    + intros a b. apply ltb_asym.
    + apply (showDaily_Sites_facts day feeds keys Hrange).
    + apply (showDaily_Sites_facts day feeds keys' Hrange').
    + rewrite !showDaily_Sites. apply Permutation_flat_map, Hkeys.
  - rewrite !showDaily_Singles. apply Permutation_flat_map, Hkeys.
Qed.

End DailyProperties.

Lemma showDaily_entries_of_the_day_witness :
  let page := Day.showDaily (@insertionSort) day0 snapshot ["A"; "B"] in
  Permutation
    (shown page)
    (filter
       (fun e =>
          time.After (When e) day0
          && time.After (Day.AddDate_1day day0) (When e))
       snapshot)
  /\ (forall e,
        When e = day0 \/ When e = Day.AddDate_1day day0 ->
        ~ In e (shown page)).
Proof.
  apply (showDaily_entries_of_the_day
           (@insertionSort)
           (fun A x less => insertionSort_Permutation less x)
           day0 snapshot ["A"; "B"]).
  - simpl. lia.
  - exact (perm_swap "B" "A" []).
Defined.

Lemma filterEntries_window_witness :
  let end_ := Day.AddDate_1day day0 in
  let listing := Day.filterEntries (@insertionSort) snapshot day0 end_ in
  (forall e,
      In e listing <->
      In e snapshot
      /\ time.After (When e) day0 = true
      /\ time.After end_ (When e) = true)
  /\ StronglySorted (fun a b => time.After (When b) (When a) = false) listing
  /\ Permutation
       listing
       (filter (fun e => time.After end_ (When e))
               (filterEntries (@insertionSort) snapshot day0))
  /\ (time.After end_ day0 = false -> listing = []).
Proof.
  apply (filterEntries_window
           (@insertionSort)
           (fun A x less => insertionSort_Permutation less x)
           (fun A x less H => insertionSort_IsSorted less H x)
           snapshot day0 (Day.AddDate_1day day0)).
  reflexivity.
Defined.

Lemma showDaily_groups_by_feed_witness :
  let page := Day.showDaily (@insertionSort) day0 snapshot ["A"; "B"] in
  let listing :=
    Day.filterEntries (@insertionSort) snapshot day0
      (Day.AddDate_1day day0) in
  Forall
    (fun site =>
       Day.Entries site = ofFeed (Day.Name site) listing
       /\ (2 <= List.length (Day.Entries site))%nat
       /\ StronglySorted (fun a b => time.After (When b) (When a) = false)
            (Day.Entries site))
    (Day.Sites page)
  /\ Forall (fun e => ofFeed (FeedName e) listing = [e]) (Day.Singles page)
  /\ StronglySorted
       (fun a b => String.ltb (Day.Name a) (Day.Name b) = true)
       (Day.Sites page).
Proof.
  apply (showDaily_groups_by_feed
           (@insertionSort)
           (fun A x less => insertionSort_Permutation less x)
           (fun A x less H => insertionSort_IsSorted less H x)
           day0 snapshot ["A"; "B"]).
  exact (perm_swap "B" "A" []).
Defined.

Lemma showDaily_order_of_range_witness :
  Day.Sites (Day.showDaily (@insertionSort) day0 snapshot ["A"; "B"])
  = Day.Sites (Day.showDaily (@insertionSort) day0 snapshot ["B"; "A"])
  /\ Permutation
       (Day.Singles (Day.showDaily (@insertionSort) day0 snapshot ["A"; "B"]))
       (Day.Singles
          (Day.showDaily (@insertionSort) day0 snapshot ["B"; "A"])).
Proof.
  apply (showDaily_order_of_range
           (@insertionSort)
           (fun A x less => insertionSort_Permutation less x)
           (fun A x less H => insertionSort_IsSorted less H x)
           day0 snapshot ["A"; "B"] ["B"; "A"]).
  - exact (perm_swap "B" "A" []).
  - exact (Permutation_refl ["B"; "A"]).
Defined.
